(** * Bookstore micro-services: order, account and catalog handlers

    A shallow embedding of the three Express services of the repository
    (service-commandes, service-utilisateurs, service-livres) and the
    properties of their request handlers.

    Each handler is a function of the request, of the outside world as the
    handler meets it (answers of the peer services, clock, datastore
    faults) and of the service's own table; it yields the HTTP response
    together with the table afterwards and, for the order service, the log
    of the outbound calls it issued. *)

From Stdlib Require Import ZArith List String Ascii Bool Lia.
From Stdlib Require Import DecimalString DecimalZ.
Import ListNotations.
Open Scope string_scope.
Open Scope list_scope.
Open Scope Z_scope.

(* ===================================================================== *)
(** ** JavaScript values *)
(* ===================================================================== *)

Module JS.

(** The values the handlers manipulate: what JSON carries, [undefined]
    (a missing property) and [Date] (instants, in milliseconds since the
    epoch).  Numbers are the integers; JSON carries no NaN. *)
#[warnings="-register-all"]
Inductive value : Type :=
| VUndefined
| VNull
| VBool (b : bool)
| VNum (n : Z)
| VStr (s : string)
| VDate (t : Z)
| VArr (items : list value)
| VObj (fields : list (string * value)).

Definition object := list (string * value).

(** ToBoolean: [if (v)], [!v], [v || d]. *)
Definition truthy (v : value) : bool :=
  match v with
  | VUndefined | VNull => false
  | VBool b => b
  | VNum n => negb (n =? 0)
  | VStr s => negb (s =? "")%string
  | VDate _ | VArr _ | VObj _ => true
  end.

(** [typeof v === 'undefined'] *)
Definition is_undefined (v : value) : bool :=
  match v with VUndefined => true | _ => false end.

(** [v == null]: the values on which a property read throws. *)
Definition nullish (v : value) : bool :=
  match v with VUndefined | VNull => true | _ => false end.

(** Own property of an object literal or of a parsed JSON object. *)
Fixpoint lookup (k : string) (o : object) : option value :=
  match o with
  | [] => None
  | (k', v) :: o' => if (k =? k')%string then Some v else lookup k o'
  end.

(** [v.k] for the keys the services read ([userId], [bookId], [name],
    [title], [email], ...): none of them is inherited from a prototype, so
    the read is [undefined] unless [v] is an object owning the key. *)
Definition prop (v : value) (k : string) : value :=
  match v with
  | VObj o => match lookup k o with Some x => x | None => VUndefined end
  | _ => VUndefined
  end.

(** [o[k] = v]: an existing key keeps its place, a new one goes last. *)
Fixpoint obj_set (k : string) (v : value) (o : object) : object :=
  match o with
  | [] => [(k, v)]
  | (k', v') :: o' =>
      if (k =? k')%string then (k, v) :: o' else (k', v') :: obj_set k v o'
  end.

(** [JSON.stringify] followed by the client's [JSON.parse]: members whose
    value is [undefined] are left out of objects and become [null] in
    arrays.  A [Date] is written as the ISO-8601 text of its instant; that
    rendering is not modelled and the instant is kept. *)
Fixpoint to_json (v : value) : value :=
  match v with
  | VArr items =>
      VArr (map (fun x => match x with
                          | VUndefined => VNull
                          | _ => to_json x
                          end) items)
  | VObj fields =>
      VObj ((fix members (o : object) : object :=
               match o with
               | [] => []
               | (k, x) :: o' =>
                   match x with
                   | VUndefined => members o'
                   | _ => (k, to_json x) :: members o'
                   end
               end) fields)
  | _ => v
  end.

(** The members of a serialised object, as a function of its own. *)
Fixpoint json_members (o : object) : object :=
  match o with
  | [] => []
  | (k, x) :: o' =>
      match x with
      | VUndefined => json_members o'
      | _ => (k, to_json x) :: json_members o'
      end
  end.

(** Whether the object [j], as parsed by the client, has the member [k]. *)
Definition json_has (j : value) (k : string) : bool :=
  match j with
  | VObj o => match lookup k o with Some _ => true | None => false end
  | _ => false
  end.

(** [String.prototype.includes] *)
Fixpoint includes (needle hay : string) : bool :=
  String.prefix needle hay ||
  match hay with
  | EmptyString => false
  | String _ hay' => includes needle hay'
  end.

(** *** parseInt *)

Definition char_code (c : ascii) : Z := Z.of_N (N_of_ascii c).

(** Value of a character as a digit, in any radix up to 36. *)
Definition digit_value (c : ascii) : option Z :=
  let n := char_code c in
  if (48 <=? n) && (n <=? 57) then Some (n - 48)
  else if (97 <=? n) && (n <=? 122) then Some (n - 87)
  else if (65 <=? n) && (n <=? 90) then Some (n - 55)
  else None.

(** Leading white space and line terminators, on the UTF-8 bytes of the
    text: TAB, LF, VT, FF, CR, SP, then U+00A0, U+1680, U+2000..U+200A,
    U+2028, U+2029, U+202F, U+205F, U+3000 and U+FEFF. *)
Fixpoint skip_ws (s : string) : string :=
  match s with
  | String c s1 =>
      let a := char_code c in
      if ((9 <=? a) && (a <=? 13)) || (a =? 32) then skip_ws s1
      else
        match s1 with
        | String c1 s2 =>
            let b := char_code c1 in
            if (a =? 194) && (b =? 160) then skip_ws s2
            else
              match s2 with
              | String c2 s3 =>
                  let d := char_code c2 in
                  if ((a =? 225) && (b =? 154) && (d =? 128))
                     || ((a =? 226) && (b =? 128)
                         && (((128 <=? d) && (d <=? 138))
                             || (d =? 168) || (d =? 169) || (d =? 175)))
                     || ((a =? 226) && (b =? 129) && (d =? 159))
                     || ((a =? 227) && (b =? 128) && (d =? 128))
                     || ((a =? 239) && (b =? 187) && (d =? 191))
                  then skip_ws s3
                  else s
              | EmptyString => s
              end
        | EmptyString => s
        end
  | EmptyString => s
  end.

(** The longest prefix of radix-[R] digits, read most significant first;
    [acc] is [None] until a digit has been read. *)
Fixpoint read_digits (R : Z) (s : string) (acc : option Z) : option Z :=
  match s with
  | String c s' =>
      match digit_value c with
      | Some d =>
          if d <? R
          then read_digits R s' (Some (match acc with
                                       | Some n => n * R + d
                                       | None => d
                                       end))
          else acc
      | None => acc
      end
  | EmptyString => acc
  end.

Definition strip_hex_prefix (s : string) : option string :=
  match s with
  | String "0" (String x s') =>
      if (char_code x =? 120) || (char_code x =? 88) then Some s' else None
  | _ => None
  end.

(** [parseInt(s, radix)]; [radix = None] is the one-argument call and
    [None] as a result is NaN.  The result is exact: the rounding of
    integers beyond 2^53 to a double is not modelled. *)
Definition parseInt (s : string) (radix : option Z) : option Z :=
  let s0 := skip_ws s in
  let '(negative, s1) :=
    match s0 with
    | String "-" r => (true, r)
    | String "+" r => (false, r)
    | _ => (false, s0)
    end in
  let R0 := match radix with Some r => r | None => 0 end in
  if negb (R0 =? 0) && ((R0 <? 2) || (36 <? R0)) then None
  else
    let '(R, s2) :=
      if (R0 =? 0) || (R0 =? 16)
      then match strip_hex_prefix s1 with
           | Some r => (16, r)
           | None => (if R0 =? 0 then 10 else R0, s1)
           end
      else (R0, s1) in
    match read_digits R s2 None with
    | Some n => Some (if negative then - n else n)
    | None => None
    end.

End JS.
Import JS.


(* ===================================================================== *)
(** ** Express handlers *)
(* ===================================================================== *)

Module Http.

(** A template literal: its literal parts and the interpolated values, in
    order.  A plain string is the template of one literal part. *)
Inductive chunk : Type :=
| Lit (s : string)
| Interp (v : value).

Definition template := list chunk.

Inductive payload : Type :=
| Text (t : template)      (* res.send('...') and res.send(`...`) *)
| Json (v : value)         (* res.json(v), as the client parses it *)
| Sent (v : value).        (* res.send(v) of a computed value *)

Record response : Type := { res_status : Z; res_body : payload }.

(** The response of a peer, as axios hands it over. *)
Record ax_response : Type := { ax_status : Z; data : value }.

(** The properties of a thrown error that the handlers read. *)
Record js_error : Type :=
  { error_name : string;
    error_message : string;
    error_errors : value;
    error_response : option ax_response }.

(** The error of a property read on [null] or [undefined]. *)
Definition TypeError : js_error :=
  {| error_name := "TypeError";
     error_message := "Cannot read properties of null";
     error_errors := VUndefined;
     error_response := None |}.

(** What a promise settles to.  For an outbound [axios.get], a fulfilled
    promise carries the peer's response; a rejected one an error, whose
    [response] is set when the peer answered with a status outside 2xx and
    unset when no answer came (connection refused, time-out). *)
Inductive settled (A : Type) : Type :=
| Fulfilled (a : A)
| Rejected (e : js_error).
Arguments Fulfilled {A} a.
Arguments Rejected {A} e.

(** One step of an async handler: it goes on with a value, has sent the
    response (every send of the services ends the handler), or has thrown. *)
Inductive step (A : Type) : Type :=
| Next (a : A)
| Done (r : response)
| Threw (e : js_error).
Arguments Next {A} a.
Arguments Done {A} r.
Arguments Threw {A} e.

(** A handler reads its environment [E] and threads the state [S]. *)
Definition handler (E S A : Type) : Type := E -> S -> step A * S.

Section Monad.
Context {E S : Type}.

Definition ret {A} (a : A) : handler E S A := fun _ s => (Next a, s).

Definition bind {A B} (m : handler E S A) (k : A -> handler E S B)
  : handler E S B :=
  fun e s =>
    match m e s with
    | (Next a, s') => k a e s'
    | (Done r, s') => (Done r, s')
    | (Threw x, s') => (Threw x, s')
    end.

(** [res.status(code).send(...)] *)
Definition send {A} (code : Z) (b : payload) : handler E S A :=
  fun _ s => (Done {| res_status := code; res_body := b |}, s).

(** [res.status(code).json(v)] *)
Definition send_json {A} (code : Z) (v : value) : handler E S A :=
  send code (Json (to_json v)).

Definition throw {A} (x : js_error) : handler E S A :=
  fun _ s => (Threw x, s).

(** [try { m } catch (error) { h error }] *)
Definition try_catch {A} (m : handler E S A) (h : js_error -> handler E S A)
  : handler E S A :=
  fun e s =>
    match m e s with
    | (Threw x, s') => h x e s'
    | other => other
    end.

(** [p.catch(err => null)]: a rejection becomes [null]. *)
Definition catch_null {A} (m : handler E S A) : handler E S (option A) :=
  try_catch (bind m (fun a => ret (Some a))) (fun _ => ret None).

Definition ask : handler E S E := fun e s => (Next e, s).
Definition get : handler E S S := fun _ s => (Next s, s).
Definition put (s : S) : handler E S unit := fun _ _ => (Next tt, s).

(** [v.k] where [v] may be [null] or [undefined]: the read throws a
    TypeError there. *)
Definition member (v : value) (k : string) : handler E S value :=
  if nullish v
  then throw TypeError
  else ret (prop v k).

(** [Promise.all(xs.map(f))]: the calls of [f] start in the order of the
    list. *)
Fixpoint for_each {A B} (f : A -> handler E S B) (xs : list A)
  : handler E S (list B) :=
  match xs with
  | [] => ret []
  | x :: xs' =>
      bind (f x) (fun y => bind (for_each f xs') (fun ys => ret (y :: ys)))
  end.

(** The response a request gets, and the state it leaves. *)
Definition respond (m : handler E S unit) (e : E) (s : S)
  : option response * S :=
  match m e s with
  | (Done r, s') => (Some r, s')
  | (_, s') => (None, s')
  end.
End Monad.

Declare Scope handler_scope.
Delimit Scope handler_scope with handler.
Notation "x <- m ;; k" := (bind m (fun x => k))
  (at level 61, m at next level, right associativity) : handler_scope.
Notation "m ;;; k" := (bind m (fun _ => k))
  (at level 61, right associativity) : handler_scope.
Notation "'try' m 'catch' h" := (try_catch m h)
  (at level 60, m at level 200, h at level 200) : handler_scope.

(** The response of [res.status(code).send(text)], as [respond] gives it. *)
Definition reply (code : Z) (text : template) : option response :=
  Some {| res_status := code; res_body := Text text |}.

(** [error.response && error.response.status === code] *)
Definition has_status (error : js_error) (code : Z) : bool :=
  match error_response error with
  | Some r => ax_status r =? code
  | None => false
  end.

(** [r?.data] on the result of a call whose rejection was turned into
    [null]. *)
Definition data_of (r : option ax_response) : value :=
  match r with
  | Some r => data r
  | None => VUndefined
  end.

End Http.
Import Http.
Open Scope handler_scope.

(* ===================================================================== *)
(** ** Order service (service-commandes) *)
(* ===================================================================== *)

Module Commandes.

(** The [Order] model, with the two timestamps Sequelize adds.  The
    identifiers are kept as the values they were given as. *)
Record Order : Type :=
  { id : Z;
    userId : value;
    bookId : value;
    dateCommande : Z;
    status : string;
    createdAt : Z;
    updatedAt : Z }.

(** The outbound calls: [GET UTILISATEURS_SERVICE_URL/users/${id}] and
    [GET LIVRES_SERVICE_URL/livres/${id}]. *)
Inductive request : Type :=
| GetUser (id : value)
| GetBook (id : value).

(** The outside world as one request meets it: what each outbound call
    settles to (given the calls issued before it), the clock read by
    [new Date()], the clock of the datastore, and the error the datastore
    raises on this request's operation, if any. *)
Record Env : Type :=
  { peers : list request -> request -> settled ax_response;
    now : Z;
    db_now : Z;
    db_error : option js_error }.

(** The order table with its auto-increment counter, and the log of the
    outbound calls issued so far. *)
Record World : Type :=
  { orders : list Order;
    next_id : Z;
    calls : list request }.

Abbreviation M := (handler Env World).

(** [axios.get(url)]: the call is logged, then settles. *)
Definition axios_get (rq : request) : M ax_response :=
  fun env w =>
    let w' := {| orders := orders w;
                 next_id := next_id w;
                 calls := calls w ++ [rq] |} in
    match peers env (calls w) rq with
    | Fulfilled r => (Next r, w')
    | Rejected e => (Threw e, w')
    end.

(** A datastore operation raises the error of the environment, if any. *)
Definition db_guard : M unit :=
  fun env w =>
    match db_error env with
    | Some e => (Threw e, w)
    | None => (Next tt, w)
    end.

(** [Order.create({ userId, bookId, dateCommande, status })] *)
Definition Order_create (userId bookId : value) (dateCommande : Z)
  (status : string) : M Order :=
  db_guard ;;;
  env <- ask ;;
  w <- get ;;
  let o := {| id := next_id w;
              userId := userId;
              bookId := bookId;
              dateCommande := dateCommande;
              status := status;
              createdAt := db_now env;
              updatedAt := db_now env |} in
  put {| orders := orders w ++ [o];
         next_id := next_id w + 1;
         calls := calls w |} ;;;
  ret o.

(** [Order.findAll()] *)
Definition Order_findAll : M (list Order) :=
  db_guard ;;;
  w <- get ;;
  ret (orders w).

(** [Order.findByPk(orderId)] *)
Definition Order_findByPk (orderId : Z) : M (option Order) :=
  db_guard ;;;
  w <- get ;;
  ret (find (fun o => id o =? orderId) (orders w)).

(** [order.get({ plain: true })], also what [res.json(order)] writes. *)
Definition plain (o : Order) : object :=
  [ ("id", VNum (id o));
    ("userId", userId o);
    ("bookId", bookId o);
    ("dateCommande", VDate (dateCommande o));
    ("status", VStr (status o));
    ("createdAt", VDate (createdAt o));
    ("updatedAt", VDate (updatedAt o)) ].

(** [app.post('/commandes', ...)] *)
Definition post_commandes (req_body : object) : M unit :=
  let userId := prop (VObj req_body) "userId" in
  let bookId := prop (VObj req_body) "bookId" in
  if negb (truthy userId) || negb (truthy bookId) then
    send 400 (Text [Lit "userId et bookId sont requis"])
  else
    try
      (* 1. Verify User exists by calling Service Utilisateurs *)
      (try
         axios_get (GetUser userId) ;;;
         ret tt
       catch (fun error =>
         if has_status error 404 then
           send 404 (Text [Lit "Utilisateur avec ID "; Interp userId;
                           Lit " non trouvé."])
         else
           send 500
             (Text [Lit "Erreur lors de la vérification de l'utilisateur."]))) ;;;
      (* 2. Verify Book exists by calling Service Livres *)
      bookDetails <-
        (try
           bookResponse <- axios_get (GetBook bookId) ;;
           let bookDetails := data bookResponse in
           member bookDetails "title" ;;;      (* read by the console.log *)
           ret bookDetails
         catch (fun error =>
           if has_status error 404 then
             send 404 (Text [Lit "Livre avec ID "; Interp bookId;
                             Lit " non trouvé."])
           else
             send 500 (Text [Lit "Erreur lors de la vérification du livre."]))) ;;
      (* 3. Create Order in the database *)
      env <- ask ;;
      newOrder <- Order_create userId bookId (now env) "En cours" ;;
      send_json 201 (VObj (plain newOrder))
    catch (fun error =>
      if negb (error_name error =? "")%string
         && includes "Sequelize" (error_name error)
      then
        send 500
          (Text [Lit "Erreur base de données lors de la création de la commande."])
      else
        send 500
          (Text [Lit "Erreur serveur interne lors de la création de la commande."])).

Definition unknown_user : string := "Utilisateur inconnu".
Definition unknown_book : string := "Livre inconnu".

(** The enrichment of one order; the two read routes carry the same code.
    Both calls are issued before either answer is awaited, each with its
    own [.catch] that turns a rejection into [null].  On an exception the
    outer [catch] keeps the names assigned so far; the statements after the
    calls cannot throw (the reads are guarded by the truthiness of [data]),
    so its fallback is the two defaults. *)
Definition enrich (order : Order) : M value :=
  names <-
    (try
       userResponse <- catch_null (axios_get (GetUser (userId order))) ;;
       bookResponse <- catch_null (axios_get (GetBook (bookId order))) ;;
       let userName :=
         if truthy (data_of userResponse)
         then prop (data_of userResponse) "name"
         else VStr unknown_user in
       let bookTitle :=
         if truthy (data_of bookResponse)
         then prop (data_of bookResponse) "title"
         else VStr unknown_book in
       ret (userName, bookTitle)
     catch (fun fetchError => ret (VStr unknown_user, VStr unknown_book))) ;;
  let '(userName, bookTitle) := names in
  ret (VObj (obj_set "bookTitle" bookTitle
               (obj_set "userName" userName (plain order)))).

(** [app.get('/commandes', ...)] *)
Definition get_commandes : M unit :=
  try
    orders <- Order_findAll ;;
    enrichedOrders <- for_each enrich orders ;;
    send_json 200 (VArr enrichedOrders)
  catch (fun error =>
    send 500 (Text [Lit "Erreur serveur lors de la récupération des commandes."])).

(** [app.get('/commandes/:id', ...)] *)
Definition get_commande (req_params_id : string) : M unit :=
  try
    match parseInt req_params_id (Some 10) with
    | None => send 400 (Text [Lit "ID de commande invalide."])
    | Some orderId =>
        order <- Order_findByPk orderId ;;
        match order with
        | Some order =>
            enrichedOrder <- enrich order ;;
            send_json 200 enrichedOrder
        | None => send 404 (Text [Lit "Commande non trouvée"])
        end
    end
  catch (fun error =>
    let status :=
      match error_response error with
      | Some r => if ax_status r =? 0 then 500 else ax_status r
      | None => 500
      end in
    let message :=
      let m := prop (data_of (error_response error)) "message" in
      if truthy m
      then m
      else VStr "Erreur serveur lors de la récupération de la commande." in
    send status (Sent message)).

(** *** Notions used to state the properties of the routes *)

(** The calls a request added to the log. *)
Definition issued (before after : World) : list request :=
  skipn (List.length (calls before)) (calls after).

(** The world after the calls [new] have been issued. *)
Definition logged (w : World) (new : list request) : World :=
  {| orders := orders w; next_id := next_id w; calls := calls w ++ new |}.

(** Peers whose answers do not depend on the calls made before. *)
Definition stateless (env : Env) : Prop :=
  forall log log' rq, peers env log rq = peers env log' rq.

(** The display name [enrich] derives from what the user lookup settled
    to, and the title it derives from the book lookup. *)
Definition user_name_of (r : settled ax_response) : value :=
  match r with
  | Fulfilled r =>
      if truthy (data r) then prop (data r) "name" else VStr unknown_user
  | Rejected _ => VStr unknown_user
  end.

Definition book_title_of (r : settled ax_response) : value :=
  match r with
  | Fulfilled r =>
      if truthy (data r) then prop (data r) "title" else VStr unknown_book
  | Rejected _ => VStr unknown_book
  end.

(** The two lookups of one order, issued when the log is [log]. *)
Definition user_lookup (env : Env) (log : list request) (o : Order)
  : settled ax_response :=
  peers env log (GetUser (userId o)).

Definition book_lookup (env : Env) (log : list request) (o : Order)
  : settled ax_response :=
  peers env (log ++ [GetUser (userId o)]) (GetBook (bookId o)).

(** The order's own fields followed by the two display fields. *)
Definition enriched (env : Env) (log : list request) (o : Order) : value :=
  VObj (plain o ++ [ ("userName", user_name_of (user_lookup env log o));
                     ("bookTitle", book_title_of (book_lookup env log o)) ]).

Definition lookups (o : Order) : list request :=
  [GetUser (userId o); GetBook (bookId o)].

Fixpoint enriched_all (env : Env) (log : list request) (os : list Order)
  : list value :=
  match os with
  | [] => []
  | o :: os' => enriched env log o :: enriched_all env (log ++ lookups o) os'
  end.

(** The row [Order.create] inserts for a request met in world [w]. *)
Definition created (env : Env) (w : World) (userId bookId : value) : Order :=
  {| id := next_id w;
     userId := userId;
     bookId := bookId;
     dateCommande := now env;
     status := "En cours";
     createdAt := db_now env;
     updatedAt := db_now env |}.

End Commandes.

(* ===================================================================== *)
(** ** Account service (service-utilisateurs) *)
(* ===================================================================== *)

Module Utilisateurs.

(** The [User] model; [password] holds the bcrypt digest. *)
Record User : Type :=
  { id : Z;
    email : string;
    password : string;
    name : string;
    createdAt : Z;
    updatedAt : Z }.

(** [bcrypt] is a collaborator of the service: [bcrypt.compare(data, hash)]
    settles to a boolean, or rejects (on data that is not a string, for
    one).  The table raises the error of the environment, if any. *)
Record Env : Type :=
  { bcrypt_compare : value -> string -> settled bool;
    db_error : option js_error }.

Definition World : Type := list User.

Abbreviation M := (handler Env World).

(** Whether a row's [email] satisfies [where: { email }]: equality for a
    string, membership for an array of strings. *)
Definition where_email (wanted : value) (u : User) : bool :=
  match wanted with
  | VStr s => (email u =? s)%string
  | VArr items =>
      existsb (fun x => match x with
                        | VStr s => (email u =? s)%string
                        | _ => false
                        end) items
  | _ => false
  end.

(** [User.findOne({ where: { email } })] *)
Definition User_findOne (wanted : value) : M (option User) :=
  fun env users =>
    match db_error env with
    | Some e => (Threw e, users)
    | None => (Next (find (where_email wanted) users), users)
    end.

(** [await bcrypt.compare(password, user.password)] *)
Definition compare (password : value) (digest : string) : M bool :=
  fun env users =>
    match bcrypt_compare env password digest with
    | Fulfilled b => (Next b, users)
    | Rejected e => (Threw e, users)
    end.

(** [const { password: _, ...userWithoutPassword } = user.get({ plain: true })] *)
Definition userWithoutPassword (u : User) : object :=
  [ ("id", VNum (id u));
    ("email", VStr (email u));
    ("name", VStr (name u));
    ("createdAt", VDate (createdAt u));
    ("updatedAt", VDate (updatedAt u)) ].

(** [app.post('/login', ...)] *)
Definition post_login (req_body : object) : M unit :=
  let email := prop (VObj req_body) "email" in
  let password_given := prop (VObj req_body) "password" in
  if negb (truthy email) || negb (truthy password_given) then
    send 400 (Text [Lit "Email et mot de passe sont requis"])
  else
    try
      user <- User_findOne email ;;
      match user with
      | None => send 401 (Text [Lit "Email ou mot de passe invalide"])
      | Some user =>
          isPasswordValid <- compare password_given (password user) ;;
          if isPasswordValid : bool then
            send_json 200
              (VObj [ ("message", VStr "Connexion réussie");
                      ("user", VObj (userWithoutPassword user)) ])
          else
            send 401 (Text [Lit "Email ou mot de passe invalide"])
      end
    catch (fun error =>
      send 500 (Text [Lit "Erreur serveur lors de la connexion."])).

End Utilisateurs.

(* ===================================================================== *)
(** ** Catalog service (service-livres) *)
(* ===================================================================== *)

Module Livres.

(** The [Book] model.  An instance holds whatever the handler assigned to
    its attributes; the datastore validates them when the instance is
    saved. *)
Record Book : Type :=
  { id : Z;
    title : value;
    author : value;
    year : value;
    createdAt : Z;
    updatedAt : Z }.

(** The clock of the datastore and the errors it raises on the lookup and
    on the save of this request, if any. *)
Record Env : Type :=
  { db_now : Z;
    find_error : option js_error;
    save_error : option js_error }.

Definition World : Type := list Book.

Abbreviation M := (handler Env World).

(** [Book.findByPk(bookId)]; [bookId = None] is NaN, the key of no row. *)
Definition Book_findByPk (bookId : option Z) : M (option Book) :=
  fun env books =>
    match find_error env with
    | Some e => (Threw e, books)
    | None =>
        (Next match bookId with
              | Some k => find (fun b => id b =? k) books
              | None => None
              end, books)
    end.

Fixpoint value_eqb (a b : value) : bool :=
  match a, b with
  | VUndefined, VUndefined => true
  | VNull, VNull => true
  | VBool x, VBool y => Bool.eqb x y
  | VNum x, VNum y => x =? y
  | VStr x, VStr y => (x =? y)%string
  | VDate x, VDate y => x =? y
  | VArr xs, VArr ys =>
      (fix all2 (xs ys : list value) : bool :=
         match xs, ys with
         | [], [] => true
         | x :: xs', y :: ys' => value_eqb x y && all2 xs' ys'
         | _, _ => false
         end) xs ys
  | VObj xs, VObj ys =>
      (fix all2 (xs ys : object) : bool :=
         match xs, ys with
         | [], [] => true
         | (k, x) :: xs', (k', y) :: ys' =>
             (k =? k')%string && value_eqb x y && all2 xs' ys'
         | _, _ => false
         end) xs ys
  | _, _ => false
  end.

(** The attributes the instance has changed with respect to its row. *)
Definition changed (row book : Book) : bool :=
  negb (value_eqb (title row) (title book)
        && value_eqb (author row) (author book)
        && value_eqb (year row) (year book)).

Fixpoint write_row (book : Book) (books : list Book) : list Book :=
  match books with
  | [] => []
  | row :: books' =>
      if id row =? id book then book :: books' else row :: write_row book books'
  end.

(** [book.save()]: nothing is written when no attribute changed;
    otherwise the row is updated and [updatedAt] stamped. *)
Definition Book_save (book : Book) : M Book :=
  fun env books =>
    match save_error env with
    | Some e => (Threw e, books)
    | None =>
        match find (fun b => id b =? id book) books with
        | Some row =>
            if changed row book then
              let saved := {| id := id book;
                              title := title book;
                              author := author book;
                              year := year book;
                              createdAt := createdAt book;
                              updatedAt := db_now env |} in
              (Next saved, write_row saved books)
            else (Next book, books)
        | None => (Next book, books)
        end
    end.

(** What [res.json(book)] writes. *)
Definition plain (b : Book) : object :=
  [ ("id", VNum (id b));
    ("title", title b);
    ("author", author b);
    ("year", year b);
    ("createdAt", VDate (createdAt b));
    ("updatedAt", VDate (updatedAt b)) ].

Definition with_title (b : Book) (v : value) : Book :=
  {| id := id b; title := v; author := author b; year := year b;
     createdAt := createdAt b; updatedAt := updatedAt b |}.

Definition with_author (b : Book) (v : value) : Book :=
  {| id := id b; title := title b; author := v; year := year b;
     createdAt := createdAt b; updatedAt := updatedAt b |}.

Definition with_year (b : Book) (v : value) : Book :=
  {| id := id b; title := title b; author := author b; year := v;
     createdAt := createdAt b; updatedAt := updatedAt b |}.

(** The three conditional assignments of the update route. *)
Definition apply_update (book : Book) (title author year : value) : Book :=
  let book := if truthy title then with_title book title else book in
  let book := if truthy author then with_author book author else book in
  if negb (is_undefined year) then with_year book year else book.

(** [app.get('/livres/:id', ...)], the route the order service calls. *)
Definition get_livre (req_params_id : string) : M unit :=
  try
    let bookId := parseInt req_params_id None in
    book <- Book_findByPk bookId ;;
    match book with
    | Some book => send_json 200 (VObj (plain book))
    | None => send 404 (Text [Lit "Livre non trouvé"])
    end
  catch (fun error =>
    send 500 (Text [Lit "Erreur serveur lors de la récupération du livre"])).

(** [app.put('/livres/:id', ...)] *)
Definition put_livre (req_params_id : string) (req_body : object) : M unit :=
  try
    let bookId := parseInt req_params_id None in
    book <- Book_findByPk bookId ;;
    match book with
    | None => send 404 (Text [Lit "Livre non trouvé"])
    | Some book =>
        let title := prop (VObj req_body) "title" in
        let author := prop (VObj req_body) "author" in
        let year := prop (VObj req_body) "year" in
        if negb (truthy title) && negb (truthy author) && is_undefined year
        then
          send 400
            (Text [Lit "Au moins un champ (titre, auteur, année) doit être fourni pour la mise à jour"])
        else
          saved <- Book_save (apply_update book title author year) ;;
          send_json 200 (VObj (plain saved))
    end
  catch (fun error =>
    if (error_name error =? "SequelizeValidationError")%string then
      send_json 400 (VObj [ ("error", VStr (error_message error));
                            ("details", error_errors error) ])
    else
      send 500 (Text [Lit "Erreur serveur lors de la mise à jour du livre"])).

End Livres.

(* ===================================================================== *)
(** ** The wording of the specification *)
(* ===================================================================== *)

Module Wording.

(** "The identifier is present in the request body": the body owns the
    key.  This follows the words of the specification, to be compared
    with the truthiness test of the route. *)
Definition present (req_body : object) (k : string) : bool :=
  match lookup k req_body with
  | Some _ => true
  | None => false
  end.

Definition is_digit (c : ascii) : bool :=
  (48 <=? char_code c) && (char_code c <=? 57).

Fixpoint all_digits (s : string) : bool :=
  match s with
  | EmptyString => true
  | String c s' => is_digit c && all_digits s'
  end.

(** "The id path parameter is numeric": an optional minus sign followed by
    decimal digits and nothing else.  This follows the words of the
    specification, to be compared with [parseInt]. *)
Definition numeric (s : string) : bool :=
  match s with
  | EmptyString => false
  | String "-" EmptyString => false
  | String "-" s' => all_digits s'
  | _ => all_digits s
  end.

End Wording.

(* ===================================================================== *)
(** ** Sample data *)
(* ===================================================================== *)

Module Samples.
Import Commandes.

Definition ok (d : value) : settled ax_response :=
  Fulfilled {| ax_status := 200; data := d |}.

Definition http_error (code : Z) : js_error :=
  {| error_name := "AxiosError";
     error_message := "Request failed";
     error_errors := VUndefined;
     error_response := Some {| ax_status := code; data := VStr "" |} |}.

Definition unreachable : js_error :=
  {| error_name := "AxiosError";
     error_message := "connect ECONNREFUSED";
     error_errors := VUndefined;
     error_response := None |}.

(** User 1 (Ann) and books 2 and 4 exist; the catalog serves book 4
    without a title; user 9 is behind a broken link. *)
Definition sample_peers (log : list request) (rq : request)
  : settled ax_response :=
  match rq with
  | GetUser (VNum 1) => ok (VObj [("id", VNum 1); ("name", VStr "Ann")])
  | GetUser (VNum 9) => Rejected unreachable
  | GetBook (VNum 2) => ok (VObj [("id", VNum 2); ("title", VStr "Germinal")])
  | GetBook (VNum 4) => ok (VObj [("id", VNum 4)])
  | _ => Rejected (http_error 404)
  end.

Definition env0 : Env :=
  {| peers := sample_peers; now := 1000; db_now := 1001; db_error := None |}.

Definition empty : World := {| orders := []; next_id := 1; calls := [] |}.

Definition order1 : Order :=
  {| id := 1; userId := VNum 1; bookId := VNum 2; dateCommande := 1000;
     status := "En cours"; createdAt := 1001; updatedAt := 1001 |}.

(** An order whose user has been deleted since. *)
Definition order2 : Order :=
  {| id := 2; userId := VNum 7; bookId := VNum 4; dateCommande := 2000;
     status := "En cours"; createdAt := 2001; updatedAt := 2001 |}.

Definition shop : World :=
  {| orders := [order1; order2]; next_id := 3; calls := [] |}.

Definition new_order (u b : Z) : object :=
  [("userId", VNum u); ("bookId", VNum b)].

(** The account service with one user, whose password is "secret". *)
Definition ann : Utilisateurs.User :=
  {| Utilisateurs.id := 1;
     Utilisateurs.email := "ann@example.com";
     Utilisateurs.password := "$2b$10$digest-of-secret";
     Utilisateurs.name := "Ann";
     Utilisateurs.createdAt := 10;
     Utilisateurs.updatedAt := 10 |}.

Definition accounts : Utilisateurs.World := [ann].


Definition credentials (email password : string) : object :=
  [("email", VStr email); ("password", VStr password)].

(** The catalog with two books. *)
Definition germinal : Livres.Book :=
  {| Livres.id := 2;
     Livres.title := VStr "Germinal";
     Livres.author := VStr "Zola";
     Livres.year := VNum 1885;
     Livres.createdAt := 20;
     Livres.updatedAt := 20 |}.

Definition candide : Livres.Book :=
  {| Livres.id := 4;
     Livres.title := VStr "Candide";
     Livres.author := VStr "Voltaire";
     Livres.year := VNull;
     Livres.createdAt := 30;
     Livres.updatedAt := 30 |}.

Definition catalog : Livres.World := [germinal; candide].

Definition catalog_env : Livres.Env :=
  {| Livres.db_now := 5000;
     Livres.find_error := None;
     Livres.save_error := None |}.

End Samples.

(* ===================================================================== *)
(** ** Identifiers in paths *)
(* ===================================================================== *)

Module Urls.

(** The text of an integer in a template literal, [`${n}`]: its decimal
    digits, with a minus sign when negative; this is how JavaScript writes
    the integers below 10^21. *)
Definition decimal (n : Z) : string := NilZero.string_of_int (Z.to_int n).

Definition plain_integer (n : Z) : bool := Z.abs n <? 10 ^ 21.

End Urls.

(* ===================================================================== *)
(** ** Account service: registration and lookup *)
(* ===================================================================== *)

Module Inscription.
Import Utilisateurs.

(** [User.findByPk(userId)]; [userId = None] is NaN, the key of no row. *)
Definition User_findByPk (userId : option Z) : Utilisateurs.M (option User) :=
  fun env users =>
    match db_error env with
    | Some e => (Threw e, users)
    | None =>
        (Next match userId with
              | Some k => find (fun u => id u =? k) users
              | None => None
              end, users)
    end.

(** [app.get('/users/:id', ...)] *)
Definition get_user (req_params_id : string) : Utilisateurs.M unit :=
  try
    let userId := parseInt req_params_id None in
    user <- User_findByPk userId ;;
    match user with
    | Some user => send_json 200 (VObj (userWithoutPassword user))
    | None => send 404 (Text [Lit "Utilisateur non trouvé"])
    end
  catch (fun error =>
    send 500
      (Text [Lit "Erreur serveur lors de la récupération de l'utilisateur."])).

(** The user table with its auto-increment counter. *)
Record Registry : Type :=
  { users : list User;
    next_id : Z }.

(** What registration meets besides the table: [bcrypt.hash(password,
    saltRounds)], which settles to a digest or rejects; the verdict of the
    model's own validation ([allowNull], [isEmail], the column types) on an
    email and a name, which is the error it raises or the texts the two
    columns keep; the clock of the datastore; and, in [account], what the
    login route meets. *)
Record Env : Type :=
  { account : Utilisateurs.Env;
    bcrypt_hash : value -> settled string;
    accepted : value -> value -> js_error + string * string;
    db_now : Z }.

Abbreviation M := (handler Env Registry).

(** The error of a violated [unique: true]; the route reads its name. *)
Definition UniqueConstraintError : js_error :=
  {| error_name := "SequelizeUniqueConstraintError";
     error_message := "Validation error";
     error_errors := VArr [];
     error_response := None |}.

(** [await bcrypt.hash(password, saltRounds)] *)
Definition hash (password : value) : M string :=
  fun env r =>
    match bcrypt_hash env password with
    | Fulfilled digest => (Next digest, r)
    | Rejected e => (Threw e, r)
    end.

(** [User.create({ email, password: hashedPassword, name })]: the values
    are validated, then the row is inserted unless a row has the email. *)
Definition User_create (email : value) (password : string) (name : value)
  : M User :=
  fun env r =>
    match accepted env email name with
    | inl e => (Threw e, r)
    | inr (email_text, name_text) =>
        match db_error (account env) with
        | Some e => (Threw e, r)
        | None =>
            if existsb (fun u => (Utilisateurs.email u =? email_text)%string)
                       (users r)
            then (Threw UniqueConstraintError, r)
            else
              let u := {| id := next_id r;
                          email := email_text;
                          password := password;
                          name := name_text;
                          createdAt := db_now env;
                          updatedAt := db_now env |} in
              (Next u, {| users := users r ++ [u];
                          next_id := next_id r + 1 |})
        end
    end.

(** [const { password: _, ...userWithoutPassword } = newUser.get({ plain:
    true })]: the new instance holds the email and the name it was built
    with. *)
Definition registered (email name : value) (u : User) : object :=
  [ ("id", VNum (id u));
    ("email", email);
    ("name", name);
    ("createdAt", VDate (createdAt u));
    ("updatedAt", VDate (updatedAt u)) ].

(** [error.errors.map(e => e.message)] *)
Definition messages (errors : value) : M value :=
  match errors with
  | VArr items =>
      ms <- for_each (fun e => member e "message") items ;;
      ret (VArr ms)
  | _ => throw TypeError
  end.

(** [app.post('/register', ...)] *)
Definition post_register (req_body : object) : M unit :=
  let email := prop (VObj req_body) "email" in
  let password := prop (VObj req_body) "password" in
  let name := prop (VObj req_body) "name" in
  if negb (truthy email) || negb (truthy password) || negb (truthy name) then
    send 400 (Text [Lit "Email, mot de passe et nom sont requis"])
  else
    try
      hashedPassword <- hash password ;;
      newUser <- User_create email hashedPassword name ;;
      send_json 201 (VObj (registered email name newUser))
    catch (fun error =>
      if (error_name error =? "SequelizeUniqueConstraintError")%string then
        send 409 (Text [Lit "Cet email est déjà utilisé"])
      else if (error_name error =? "SequelizeValidationError")%string then
        details <- messages (error_errors error) ;;
        send_json 400 (VObj [ ("error", VStr "Validation Error");
                              ("details", details) ])
      else
        send 500 (Text [Lit "Erreur serveur lors de l'inscription."])).

(** A route of the service that only needs the rows, run on the table. *)
Definition on_users {A} (m : Utilisateurs.M A) : M A :=
  fun env r =>
    let '(s, us) := m (account env) (users r) in
    (s, {| users := us; next_id := next_id r |}).

(** The rows have distinct emails and distinct keys below the counter. *)
Definition sound (r : Registry) : Prop :=
  NoDup (map email (users r))
  /\ NoDup (map id (users r))
  /\ Forall (fun u => id u < next_id r) (users r).

End Inscription.

(* ===================================================================== *)
(** ** Catalog service: listing, creation and deletion *)
(* ===================================================================== *)

Module Catalogue.
Import Livres.

(** The book table with its auto-increment counter. *)
Record Shelf : Type :=
  { books : list Book;
    next_id : Z }.

Abbreviation M := (handler Livres.Env Shelf).

(** A route that only needs the rows, run on the table. *)
Definition on_books {A} (m : Livres.M A) : M A :=
  fun env t =>
    let '(s, bs) := m env (books t) in
    (s, {| books := bs; next_id := next_id t |}).


(** [Book.create({ title, author, year })].  The row keeps NULL for a
    year that is [undefined]; the instance handed back holds the values
    it was built with. *)
Definition Book_create (title author year : value) : M Book :=
  fun env t =>
    match save_error env with
    | Some e => (Threw e, t)
    | None =>
        let row := {| id := next_id t;
                      title := title;
                      author := author;
                      year := if is_undefined year then VNull else year;
                      createdAt := db_now env;
                      updatedAt := db_now env |} in
        (Next (with_year row year),
         {| books := books t ++ [row]; next_id := next_id t + 1 |})
    end.

(** [book.destroy()]: the row of that key is deleted; the write raises
    the error the environment holds for the write of this request. *)
Definition Book_destroy (book : Book) : M unit :=
  fun env t =>
    match save_error env with
    | Some e => (Threw e, t)
    | None =>
        (Next tt,
         {| books := filter (fun b => negb (id b =? id book)) (books t);
            next_id := next_id t |})
    end.


(** [app.get('/livres/:id', ...)] *)
Definition get_livre (req_params_id : string) : M unit :=
  on_books (Livres.get_livre req_params_id).

(** [app.post('/livres', ...)] *)
Definition post_livres (req_body : object) : M unit :=
  try
    let title := prop (VObj req_body) "title" in
    let author := prop (VObj req_body) "author" in
    let year := prop (VObj req_body) "year" in
    if negb (truthy title) || negb (truthy author) then
      send 400 (Text [Lit "Titre et auteur sont requis"])
    else
      newBook <- Book_create title author year ;;
      send_json 201 (VObj (plain newBook))
  catch (fun error =>
    if (error_name error =? "SequelizeValidationError")%string then
      send_json 400 (VObj [ ("error", VStr (error_message error));
                            ("details", error_errors error) ])
    else
      send 500 (Text [Lit "Erreur serveur lors de la création du livre"])).

(** [app.put('/livres/:id', ...)] *)
Definition put_livre (req_params_id : string) (req_body : object) : M unit :=
  on_books (Livres.put_livre req_params_id req_body).

(** [app.delete('/livres/:id', ...)]; [res.status(204).send()] writes no
    body, the empty text. *)
Definition delete_livre (req_params_id : string) : M unit :=
  try
    let bookId := parseInt req_params_id None in
    book <- on_books (Book_findByPk bookId) ;;
    match book with
    | Some book =>
        Book_destroy book ;;;
        send 204 (Text [])
    | None => send 404 (Text [Lit "Livre non trouvé"])
    end
  catch (fun error =>
    send 500 (Text [Lit "Erreur serveur lors de la suppression du livre"])).

(** The rows have distinct keys below the counter. *)
Definition sound (t : Shelf) : Prop :=
  NoDup (map id (books t))
  /\ Forall (fun b => id b < next_id t) (books t).

End Catalogue.

(* ===================================================================== *)
(** ** The three services together *)
(* ===================================================================== *)

Module Librairie.
Import Commandes.

(** The rows of the order table have distinct keys below the counter. *)
Definition sound (w : World) : Prop :=
  NoDup (map id (orders w))
  /\ Forall (fun o => id o < next_id w) (orders w).

(** What lies between the order service and its peers and is not code of
    the repository: the value axios makes of a text body (it parses the
    texts that are JSON), and the answer to a call whose identifier is not
    a plain integer, the path of which is not modelled. *)
Record Wire : Type :=
  { text_data : template -> value;
    elsewhere : request -> settled ax_response }.

(** [response.data] *)
Definition body_data (wire : Wire) (b : payload) : value :=
  match b with
  | Json v => v
  | Sent v => v
  | Text t => text_data wire t
  end.

(** How [axios.get] settles on the response of a route: fulfilled on a
    status from 200 to 299, rejected with the response otherwise, rejected
    without a response when none came. *)
Definition settle (wire : Wire) (r : option response) : settled ax_response :=
  match r with
  | Some rs =>
      let answer := {| ax_status := res_status rs;
                       data := body_data wire (res_body rs) |} in
      if (200 <=? res_status rs) && (res_status rs <? 300)
      then Fulfilled answer
      else
        Rejected
          {| error_name := "AxiosError";
             error_message :=
               ("Request failed with status code "
                ++ Urls.decimal (res_status rs))%string;
             error_errors := VUndefined;
             error_response := Some answer |}
  | None =>
      Rejected {| error_name := "AxiosError";
                  error_message := "Network Error";
                  error_errors := VUndefined;
                  error_response := None |}
  end.

(** The two peers as they stand while the order service handles one
    request: their tables and what their routes meet. *)
Record Peers : Type :=
  { accounts : list Utilisateurs.User;
    accounts_env : Utilisateurs.Env;
    catalog : list Livres.Book;
    catalog_env : Livres.Env;
    wire : Wire }.

(** The calls of the order service, answered by the routes
    [GET /users/:id] and [GET /livres/:id] of the two peers.  The path
    ends with [`${id}`], which for a plain integer is its decimal text. *)
Definition live (p : Peers) (log : list request) (rq : request)
  : settled ax_response :=
  match rq with
  | GetUser (VNum n) =>
      if Urls.plain_integer n then
        settle (wire p)
          (fst (respond (Inscription.get_user (Urls.decimal n))
                        (accounts_env p) (accounts p)))
      else elsewhere (wire p) rq
  | GetBook (VNum n) =>
      if Urls.plain_integer n then
        settle (wire p)
          (fst (respond (Livres.get_livre (Urls.decimal n))
                        (catalog_env p) (catalog p)))
      else elsewhere (wire p) rq
  | _ => elsewhere (wire p) rq
  end.

(** What a request to the order service meets when its peers are [p]. *)
Definition facing (p : Peers) (now db_now : Z) (db_error : option js_error)
  : Env :=
  {| peers := live p; now := now; db_now := db_now; db_error := db_error |}.

End Librairie.

(* ===================================================================== *)
(** ** More sample data *)
(* ===================================================================== *)

Module Scenes.

(** A stand-in for bcrypt: the digest of a text is the text behind a
    mark; other data is refused. *)
Definition toy_hash (data : value) : settled string :=
  match data with
  | VStr s => Fulfilled ("$toy$" ++ s)%string
  | _ => Rejected TypeError
  end.

Definition toy_compare (data : value) (digest : string) : settled bool :=
  match data with
  | VStr s => Fulfilled (digest =? "$toy$" ++ s)%string
  | _ => Rejected TypeError
  end.

Definition toy_accounts : Utilisateurs.Env :=
  {| Utilisateurs.bcrypt_compare := toy_compare;
     Utilisateurs.db_error := None |}.

(** Every email and name that is a text is accepted as it is. *)
Definition texts_accepted (email name : value) : js_error + string * string :=
  match email, name with
  | VStr e, VStr n => inr (e, n)
  | _, _ =>
      inl {| error_name := "SequelizeValidationError";
             error_message := "Validation error";
             error_errors :=
               VArr [VObj [("message", VStr "Validation isEmail on email failed")]];
             error_response := None |}
  end.

Definition registration : Inscription.Env :=
  {| Inscription.account := toy_accounts;
     Inscription.bcrypt_hash := toy_hash;
     Inscription.accepted := texts_accepted;
     Inscription.db_now := 50 |}.

Definition nobody : Inscription.Registry :=
  {| Inscription.users := []; Inscription.next_id := 1 |}.

Definition sign_up (email password name : string) : object :=
  [("email", VStr email); ("password", VStr password); ("name", VStr name)].

Definition zoe : Utilisateurs.User :=
  {| Utilisateurs.id := 1;
     Utilisateurs.email := "zoe@example.com";
     Utilisateurs.password := "$toy$sesame";
     Utilisateurs.name := "Zoe";
     Utilisateurs.createdAt := 50;
     Utilisateurs.updatedAt := 50 |}.

Definition members : Inscription.Registry :=
  {| Inscription.users := [zoe]; Inscription.next_id := 2 |}.

Definition shelf : Catalogue.Shelf :=
  {| Catalogue.books := Samples.catalog; Catalogue.next_id := 5 |}.

Definition new_book : object :=
  [("title", VStr "Nana"); ("author", VStr "Zola"); ("year", VNum 1880)].

Definition quiet_wire : Librairie.Wire :=
  {| Librairie.text_data := fun _ => VStr "";
     Librairie.elsewhere := fun _ => Rejected Samples.unreachable |}.

(** Zoe is a user, Germinal (2) and Candide (4) are in the catalog. *)
Definition town : Librairie.Peers :=
  {| Librairie.accounts := [zoe];
     Librairie.accounts_env := toy_accounts;
     Librairie.catalog := Samples.catalog;
     Librairie.catalog_env := Samples.catalog_env;
     Librairie.wire := quiet_wire |}.

(** The same town after Germinal was deleted from the catalog. *)
Definition town_without_germinal : Librairie.Peers :=
  {| Librairie.accounts := [zoe];
     Librairie.accounts_env := toy_accounts;
     Librairie.catalog := [Samples.candide];
     Librairie.catalog_env := Samples.catalog_env;
     Librairie.wire := quiet_wire |}.

Definition counter : Commandes.Env := Librairie.facing town 1000 1001 None.

(** A datastore that has lost its connection. *)
Definition connection_lost : js_error :=
  {| error_name := "SequelizeConnectionError";
     error_message := "connection lost";
     error_errors := VUndefined;
     error_response := None |}.

Definition order_db_down : Commandes.Env :=
  {| Commandes.peers := Samples.sample_peers;
     Commandes.now := 1000;
     Commandes.db_now := 1001;
     Commandes.db_error := Some connection_lost |}.

Definition accounts_db_down : Utilisateurs.Env :=
  {| Utilisateurs.bcrypt_compare := toy_compare;
     Utilisateurs.db_error := Some connection_lost |}.

(** The catalog refuses what it is asked to save. *)
Definition year_refused : js_error :=
  {| error_name := "SequelizeValidationError";
     error_message := "Validation error";
     error_errors := VArr [VObj [("message", VStr "year must be an integer")]];
     error_response := None |}.

Definition strict_catalog : Livres.Env :=
  {| Livres.db_now := 5000;
     Livres.find_error := None;
     Livres.save_error := Some year_refused |}.

(** The town while the account service cannot read its table. *)
Definition town_accounts_down : Librairie.Peers :=
  {| Librairie.accounts := [zoe];
     Librairie.accounts_env := accounts_db_down;
     Librairie.catalog := Samples.catalog;
     Librairie.catalog_env := Samples.catalog_env;
     Librairie.wire := quiet_wire |}.

End Scenes.

Example parseInt_samples :
  parseInt "42" (Some 10) = Some 42
  /\ parseInt "  -7" (Some 10) = Some (-7)
  /\ parseInt "12abc" (Some 10) = Some 12
  /\ parseInt "abc" (Some 10) = None
  /\ parseInt "" (Some 10) = None
  /\ parseInt "0x1A" None = Some 26
  /\ parseInt "0x1A" (Some 10) = Some 0
  /\ parseInt "+" None = None.
Proof. repeat split; reflexivity. Qed.

(* ===================================================================== *)
(** ** Properties of the order service *)
(* ===================================================================== *)

Module CommandesProps.
Import Commandes.

Ltac unfold_handler :=
  cbv beta iota delta
    [respond try_catch catch_null bind send_json send ret throw member ask
     get put axios_get Order_create Order_findAll Order_findByPk db_guard].

Lemma skipn_length_app {A} (l k : list A) : skipn (List.length l) (l ++ k) = k.
Proof. induction l; simpl; auto. Qed.

Lemma issued_app w w' new :
  calls w' = calls w ++ new -> issued w w' = new.
Proof. unfold issued. intros ->. apply skipn_length_app. Qed.

Lemma issued_nil w w' : calls w' = calls w -> issued w w' = [].
Proof.
  intros H. apply issued_app. rewrite H. symmetry. apply app_nil_r.
Qed.

Lemma logged_one_more w new rq :
  {| orders := orders w; next_id := next_id w;
     calls := (calls w ++ new) ++ [rq] |} = logged w (new ++ [rq]).
Proof. unfold logged. now rewrite app_assoc. Qed.


(** The route, path by path. *)
Lemma post_commandes_run env body w :
  let userId := prop (VObj body) "userId" in
  let bookId := prop (VObj body) "bookId" in
  respond (post_commandes body) env w =
  if truthy userId && truthy bookId then
    match peers env (calls w) (GetUser userId) with
    | Rejected e =>
        (if has_status e 404
         then reply 404 [Lit "Utilisateur avec ID "; Interp userId;
                         Lit " non trouvé."]
         else reply 500 [Lit "Erreur lors de la vérification de l'utilisateur."],
         logged w [GetUser userId])
    | Fulfilled _ =>
        match peers env (calls w ++ [GetUser userId]) (GetBook bookId) with
        | Rejected e =>
            (if has_status e 404
             then reply 404 [Lit "Livre avec ID "; Interp bookId;
                             Lit " non trouvé."]
             else reply 500 [Lit "Erreur lors de la vérification du livre."],
             logged w [GetUser userId; GetBook bookId])
        | Fulfilled r =>
            if nullish (data r) then
              (reply 500 [Lit "Erreur lors de la vérification du livre."],
               logged w [GetUser userId; GetBook bookId])
            else
              match db_error env with
              | Some e =>
                  (if negb (error_name e =? "")%string
                      && includes "Sequelize" (error_name e)
                   then reply 500 [Lit "Erreur base de données lors de la création de la commande."]
                   else reply 500 [Lit "Erreur serveur interne lors de la création de la commande."],
                   logged w [GetUser userId; GetBook bookId])
              | None =>
                  (Some {| res_status := 201;
                           res_body :=
                             Json (to_json
                                     (VObj (plain (created env w userId bookId)))) |},
                   {| orders := orders w ++ [created env w userId bookId];
                      next_id := next_id w + 1;
                      calls := calls w ++ [GetUser userId; GetBook bookId] |})
              end
        end
    end
  else (reply 400 [Lit "userId et bookId sont requis"], w).
Proof.
  intros userId bookId. unfold post_commandes. fold userId bookId.
  destruct (truthy userId); simpl; [|reflexivity].
  destruct (truthy bookId); simpl; [|reflexivity].
  unfold_handler. simpl.
  destruct (peers env (calls w) (GetUser userId)) as [ru|e]; simpl.
  - destruct (peers env (calls w ++ [GetUser userId]) (GetBook bookId))
      as [rb|e]; simpl.
    + destruct (nullish (data rb)); simpl.
      * rewrite (logged_one_more w [GetUser userId]). reflexivity.
      * destruct (db_error env) as [e|]; simpl.
        -- rewrite (logged_one_more w [GetUser userId]).
           destruct (negb (error_name e =? "")%string
                     && includes "Sequelize" (error_name e)); reflexivity.
        -- rewrite <- app_assoc. reflexivity.
    + rewrite (logged_one_more w [GetUser userId]).
      destruct (has_status e 404); reflexivity.
  - destruct (has_status e 404); reflexivity.
Qed.

Lemma logged_logged w a b : logged (logged w a) b = logged w (a ++ b).
Proof. unfold logged; simpl. now rewrite app_assoc. Qed.

Lemma logged_nil w : logged w [] = w.
Proof. unfold logged. rewrite app_nil_r. now destruct w. Qed.

(** One order is enriched by its two lookups, whatever they settle to. *)
Lemma enrich_run env w o :
  enrich o env w = (Next (enriched env (calls w) o), logged w (lookups o)).
Proof.
  unfold enrich, enriched, user_lookup, book_lookup. unfold_handler. simpl.
  destruct (peers env (calls w) (GetUser (userId o))) as [ru|eu]; simpl;
    destruct (peers env (calls w ++ [GetUser (userId o)]) (GetBook (bookId o)))
      as [rb|eb];
    simpl; rewrite (logged_one_more w [GetUser (userId o)]); reflexivity.
Qed.

Lemma for_each_enrich env os : forall w,
  for_each enrich os env w
  = (Next (enriched_all env (calls w) os), logged w (flat_map lookups os)).
Proof.
  induction os as [|o os IH]; intros w.
  - simpl. now rewrite logged_nil.
  - cbn [for_each]. unfold bind at 1. rewrite enrich_run.
    unfold bind at 1. rewrite IH. cbn [ret enriched_all flat_map].
    now rewrite logged_logged.
Qed.

Lemma get_commandes_run env w :
  respond get_commandes env w =
  match db_error env with
  | Some _ =>
      (reply 500 [Lit "Erreur serveur lors de la récupération des commandes."],
       w)
  | None =>
      (Some {| res_status := 200;
               res_body :=
                 Json (to_json (VArr (enriched_all env (calls w) (orders w)))) |},
       logged w (flat_map lookups (orders w)))
  end.
Proof.
  unfold get_commandes, respond, try_catch, Order_findAll.
  unfold bind at 1. unfold bind at 1. unfold db_guard.
  destruct (db_error env); [reflexivity|].
  unfold bind at 1. unfold get at 1. unfold bind at 1. unfold ret at 1.
  rewrite for_each_enrich. reflexivity.
Qed.

Lemma enriched_all_stateless env os :
  stateless env ->
  forall log log', enriched_all env log os = enriched_all env log' os.
Proof.
  intros Hs. induction os as [|o os IH]; intros log log'; simpl; [reflexivity|].
  f_equal; [|apply IH].
  unfold enriched, user_lookup, book_lookup.
  now rewrite (Hs log log'), (Hs (log ++ _) (log' ++ [GetUser (userId o)])).
Qed.

(** With peers that do not look at the log, the list route answers by the
    order table alone. *)
Lemma get_commandes_same_orders env w w' :
  stateless env -> orders w' = orders w ->
  fst (respond get_commandes env w') = fst (respond get_commandes env w).
Proof.
  intros Hs Ho. rewrite !get_commandes_run.
  destruct (db_error env); [reflexivity|]. simpl. rewrite Ho.
  now rewrite (enriched_all_stateless env (orders w) Hs (calls w') (calls w)).
Qed.

(** Every create request is answered. *)
Lemma post_commandes_responds env body w :
  exists rs, fst (respond (post_commandes body) env w) = Some rs.
Proof.
  rewrite post_commandes_run. cbv zeta.
  repeat match goal with
         | |- context [if ?c then _ else _] => destruct c
         | |- context [match ?x with _ => _ end] => destruct x
         end; simpl; eexists; reflexivity.
Qed.

(** The paths of the create route, told apart by what they leave behind. *)
Lemma post_commandes_paths env body w rs w' :
  respond (post_commandes body) env w = (Some rs, w') ->
  let userId := prop (VObj body) "userId" in
  let bookId := prop (VObj body) "bookId" in
  (res_status rs <> 201 /\ orders w' = orders w /\ next_id w' = next_id w)
  \/ (res_status rs = 201
      /\ (exists ru, peers env (calls w) (GetUser userId) = Fulfilled ru)
      /\ (exists rb, peers env (calls w ++ [GetUser userId]) (GetBook bookId)
                     = Fulfilled rb)
      /\ calls w' = calls w ++ [GetUser userId; GetBook bookId]
      /\ orders w' = orders w ++ [created env w userId bookId]).
Proof.
  rewrite post_commandes_run. cbv zeta. intros H.
  repeat match type of H with
         | context [if ?c then _ else _] => destruct c eqn:?
         | context [match ?x with _ => _ end] => destruct x eqn:?
         end;
    unfold reply in H; inversion H; subst; clear H; simpl;
    try (left; repeat split; [discriminate | reflexivity..]).
  right. repeat split; eauto.
Qed.

(** C1.  A create request that is rejected, whatever the reason (invalid
    input, unknown user, unknown book, failing dependency, failing
    datastore), leaves the order table and its counter as they were, so a
    later listing answers as it would have before; and when the table did
    change, both validation calls had been fulfilled, user first, and
    exactly the new order was appended. *)
Theorem post_commandes_rejected_writes_nothing env body w rs w' :
  respond (post_commandes body) env w = (Some rs, w') ->
  (res_status rs <> 201 ->
   orders w' = orders w
   /\ next_id w' = next_id w
   /\ forall env2, stateless env2 ->
        fst (respond get_commandes env2 w')
        = fst (respond get_commandes env2 w))
  /\ (orders w' <> orders w ->
      let userId := prop (VObj body) "userId" in
      let bookId := prop (VObj body) "bookId" in
      (exists ru, peers env (calls w) (GetUser userId) = Fulfilled ru)
      /\ (exists rb, peers env (calls w ++ [GetUser userId]) (GetBook bookId)
                     = Fulfilled rb)
      /\ calls w' = calls w ++ [GetUser userId; GetBook bookId]
      /\ orders w' = orders w ++ [created env w userId bookId]
      /\ res_status rs = 201).
Proof.
  intros Hrun.
  destruct (post_commandes_paths env body w rs w' Hrun)
    as [(Hrej & Ho & Hn) | (Hok & Hu & Hb & Hc & Ho)].
  - split.
    + intros _. repeat split; auto.
      intros env2 Hs. now apply get_commandes_same_orders.
    + intros Hne. contradiction.
  - split.
    + intros Hne. contradiction.
    + intros _. cbv zeta. repeat split; auto.
Qed.

Lemma post_commandes_rejected_writes_nothing_witness :
  orders (snd (respond (post_commandes (Samples.new_order 7 2))
                       Samples.env0 Samples.shop))
  = orders Samples.shop
  /\ calls (snd (respond (post_commandes (Samples.new_order 1 2))
                         Samples.env0 Samples.shop))
     = [GetUser (VNum 1); GetBook (VNum 2)].
Proof.
  split.
  - destruct (post_commandes_rejected_writes_nothing
                Samples.env0 (Samples.new_order 7 2) Samples.shop _ _ eq_refl)
      as [H _].
    destruct H as (Ho & _); [discriminate|exact Ho].
  - destruct (post_commandes_rejected_writes_nothing
                Samples.env0 (Samples.new_order 1 2) Samples.shop _ _ eq_refl)
      as [_ H].
    destruct H as (_ & _ & Hc & _); [discriminate|exact Hc].
Defined.

(** C2.  The calls a create request issues are: none when an identifier
    is falsy; the user call alone when it is rejected; the user call
    followed by the book call when it is fulfilled.  So no book call is
    issued after a rejected user call, whatever the rejection, and a book
    call is only ever issued after a fulfilled user call. *)
Theorem post_commandes_user_then_book env body w rs w' :
  respond (post_commandes body) env w = (Some rs, w') ->
  let userId := prop (VObj body) "userId" in
  let bookId := prop (VObj body) "bookId" in
  issued w w'
  = (if truthy userId && truthy bookId then
       match peers env (calls w) (GetUser userId) with
       | Fulfilled _ => [GetUser userId; GetBook bookId]
       | Rejected _ => [GetUser userId]
       end
     else [])
  /\ (forall e, peers env (calls w) (GetUser userId) = Rejected e ->
      forall b, ~ In (GetBook b) (issued w w'))
  /\ (forall b, In (GetBook b) (issued w w') ->
      (exists ru, peers env (calls w) (GetUser userId) = Fulfilled ru)
      /\ issued w w' = [GetUser userId; GetBook bookId]).
Proof.
  intros Hrun userId bookId.
  assert (Hi : issued w w'
               = (if truthy userId && truthy bookId then
                    match peers env (calls w) (GetUser userId) with
                    | Fulfilled _ => [GetUser userId; GetBook bookId]
                    | Rejected _ => [GetUser userId]
                    end
                  else [])).
  { revert Hrun. rewrite post_commandes_run. cbv zeta.
    fold userId bookId. intros H.
    repeat match type of H with
           | context [if ?c then _ else _] => destruct c eqn:?
           | context [match ?x with _ => _ end] => destruct x eqn:?
           end;
      inversion H; subst; clear H;
      first [ apply issued_nil; reflexivity
            | apply issued_app; reflexivity ]. }
  split; [exact Hi|]. rewrite Hi. split.
  - intros e He b. rewrite He.
    destruct (truthy userId && truthy bookId); simpl; [|tauto].
    intros [Hin|[]]. discriminate.
  - intros b.
    destruct (truthy userId && truthy bookId); simpl; [|tauto].
    destruct (peers env (calls w) (GetUser userId)) as [ru|e]; simpl.
    + intros _. split; [eauto|reflexivity].
    + intros [Hin|[]]. discriminate.
Qed.

Lemma post_commandes_user_then_book_witness :
  issued Samples.shop
         (snd (respond (post_commandes (Samples.new_order 9 2))
                       Samples.env0 Samples.shop))
  = [GetUser (VNum 9)]
  /\ ~ In (GetBook (VNum 2))
          (issued Samples.shop
                  (snd (respond (post_commandes (Samples.new_order 9 2))
                                Samples.env0 Samples.shop))).
Proof.
  destruct (post_commandes_user_then_book
              Samples.env0 (Samples.new_order 9 2) Samples.shop _ _ eq_refl)
    as (Hi & Hno & _).
  split; [exact Hi|].
  exact (Hno Samples.unreachable eq_refl (VNum 2)).
Defined.

(** C4.  With both identifiers given, a user call rejected with status
    404 is answered 404 with the message naming the user, a book call
    rejected with status 404 is answered 404 with the message naming the
    book, the two messages differ, and any other rejection of either call
    (no answer at all, or an answer with another status) is answered 500
    with the message of the failed verification. *)
Theorem post_commandes_error_mapping env body w :
  let userId := prop (VObj body) "userId" in
  let bookId := prop (VObj body) "bookId" in
  let user_not_found :=
    [Lit "Utilisateur avec ID "; Interp userId; Lit " non trouvé."] in
  let book_not_found :=
    [Lit "Livre avec ID "; Interp bookId; Lit " non trouvé."] in
  truthy userId = true -> truthy bookId = true ->
  (forall e, peers env (calls w) (GetUser userId) = Rejected e ->
     fst (respond (post_commandes body) env w)
     = if has_status e 404 then reply 404 user_not_found
       else reply 500 [Lit "Erreur lors de la vérification de l'utilisateur."])
  /\ (forall ru e,
       peers env (calls w) (GetUser userId) = Fulfilled ru ->
       peers env (calls w ++ [GetUser userId]) (GetBook bookId) = Rejected e ->
       fst (respond (post_commandes body) env w)
       = if has_status e 404 then reply 404 book_not_found
         else reply 500 [Lit "Erreur lors de la vérification du livre."])
  /\ user_not_found <> book_not_found
  /\ (forall e, has_status e 404 = true <->
                exists r, error_response e = Some r /\ ax_status r = 404).
Proof.
  intros userId bookId unf bnf Hu Hb.
  rewrite post_commandes_run. cbv zeta. fold userId bookId.
  rewrite Hu, Hb. simpl. repeat split.
  - intros e ->. destruct (has_status e 404); reflexivity.
  - intros ru e -> ->. destruct (has_status e 404); reflexivity.
  - unfold unf, bnf. intros H. discriminate.
  - unfold has_status. destruct (error_response e) as [r|]; [|discriminate].
    intros H. exists r. split; [reflexivity|]. now apply Z.eqb_eq.
  - unfold has_status. intros (r & -> & Hr). now apply Z.eqb_eq.
Qed.

Lemma post_commandes_error_mapping_witness :
  fst (respond (post_commandes (Samples.new_order 7 2))
               Samples.env0 Samples.shop)
  = reply 404 [Lit "Utilisateur avec ID "; Interp (VNum 7);
               Lit " non trouvé."]
  /\ fst (respond (post_commandes (Samples.new_order 9 2))
                  Samples.env0 Samples.shop)
     = reply 500 [Lit "Erreur lors de la vérification de l'utilisateur."]
  /\ fst (respond (post_commandes (Samples.new_order 1 5))
                  Samples.env0 Samples.shop)
     = reply 404 [Lit "Livre avec ID "; Interp (VNum 5); Lit " non trouvé."].
Proof.
  split; [|split].
  - destruct (post_commandes_error_mapping
                Samples.env0 (Samples.new_order 7 2) Samples.shop
                eq_refl eq_refl) as (H & _).
    exact (H (Samples.http_error 404) eq_refl).
  - destruct (post_commandes_error_mapping
                Samples.env0 (Samples.new_order 9 2) Samples.shop
                eq_refl eq_refl) as (H & _).
    exact (H Samples.unreachable eq_refl).
  - destruct (post_commandes_error_mapping
                Samples.env0 (Samples.new_order 1 5) Samples.shop
                eq_refl eq_refl) as (_ & H & _).
    exact (H _ (Samples.http_error 404) eq_refl eq_refl).
Defined.



(** C6 (as amended).  The create route answers 400 exactly when [userId]
    or [bookId] is falsy: missing, null, false, zero or the empty string.
    A request whose two identifiers are truthy is never answered 400. *)
Theorem post_commandes_invalid_input env body w :
  exists rs,
    fst (respond (post_commandes body) env w) = Some rs
    /\ (res_status rs = 400 <->
        truthy (prop (VObj body) "userId")
        && truthy (prop (VObj body) "bookId") = false).
Proof.
  rewrite post_commandes_run. cbv zeta.
  destruct (truthy (prop (VObj body) "userId")
            && truthy (prop (VObj body) "bookId")).
  2:{ eexists. split; [reflexivity|]. simpl. tauto. }
  repeat match goal with
         | |- context [if ?c then _ else _] => destruct c
         | |- context [match ?x with _ => _ end] => destruct x
         end;
    eexists; (split; [reflexivity|]); simpl; split; discriminate.
Qed.

(** C6, the claim as worded.  A body that owns both identifiers, one of
    them being zero, is answered 400. *)
Lemma post_commandes_present_yet_invalid :
  Wording.present (Samples.new_order 0 2) "userId" = true
  /\ Wording.present (Samples.new_order 0 2) "bookId" = true
  /\ fst (respond (post_commandes (Samples.new_order 0 2))
            Samples.env0 Samples.shop)
     = reply 400 [Lit "userId et bookId sont requis"].
Proof. repeat split. Qed.

(** *** Serialised objects *)

Lemma to_json_obj o : to_json (VObj o) = VObj (json_members o).
Proof. reflexivity. Qed.

Lemma lookup_absent_json k o :
  ~ In k (map fst o) -> lookup k (json_members o) = None.
Proof.
  induction o as [|[k' x] o IH]; simpl; intros Hk; [reflexivity|].
  assert (Hne : (k =? k')%string = false).
  { apply String.eqb_neq. intros ->. apply Hk. now left. }
  assert (Hrest : lookup k (json_members o) = None) by (apply IH; tauto).
  destruct x; simpl; rewrite ?Hne; exact Hrest.
Qed.

(** Reading a member of the serialised object is serialising the member,
    when no key occurs twice; a member that is [undefined] is read as
    [undefined] again, being absent. *)
Lemma prop_to_json k o :
  NoDup (map fst o) ->
  prop (to_json (VObj o)) k = to_json (prop (VObj o) k).
Proof.
  rewrite to_json_obj. unfold prop.
  induction o as [|[k' x] o IH]; simpl; intros Hnd; [reflexivity|].
  inversion Hnd as [|? ? Hk Hnd']; subst.
  destruct (k =? k')%string eqn:Ek.
  - apply String.eqb_eq in Ek. subst k'.
    destruct x; simpl; rewrite ?String.eqb_refl; try reflexivity.
    now rewrite (lookup_absent_json k o Hk).
  - destruct x; simpl; rewrite ?Ek; now apply IH.
Qed.

Lemma json_has_to_json k o :
  NoDup (map fst o) ->
  json_has (to_json (VObj o)) k = negb (is_undefined (prop (VObj o) k)).
Proof.
  rewrite to_json_obj. unfold json_has, prop.
  induction o as [|[k' x] o IH]; simpl; intros Hnd; [reflexivity|].
  inversion Hnd as [|? ? Hk Hnd']; subst.
  destruct (k =? k')%string eqn:Ek.
  - apply String.eqb_eq in Ek. subst k'.
    destruct x; simpl; rewrite ?String.eqb_refl; try reflexivity.
    now rewrite (lookup_absent_json k o Hk).
  - destruct x; simpl; rewrite ?Ek; now apply IH.
Qed.

Ltac distinct_keys :=
  simpl;
  repeat (apply NoDup_cons;
          [ simpl; intros H;
            repeat (destruct H as [H|H]; [discriminate H|]); exact H
          | ]);
  apply NoDup_nil.

Lemma enriched_keys env log o :
  exists fields, enriched env log o = VObj fields /\ NoDup (map fst fields).
Proof.
  eexists. split; [reflexivity|]. distinct_keys.
Qed.

(** What the client reads in an enriched order: the order's own fields
    and the two names derived from the lookups. *)
Lemma enriched_json env log o :
  prop (to_json (enriched env log o)) "userName"
  = to_json (user_name_of (user_lookup env log o))
  /\ prop (to_json (enriched env log o)) "bookTitle"
     = to_json (book_title_of (book_lookup env log o))
  /\ json_has (to_json (enriched env log o)) "userName"
     = negb (is_undefined (user_name_of (user_lookup env log o)))
  /\ json_has (to_json (enriched env log o)) "bookTitle"
     = negb (is_undefined (book_title_of (book_lookup env log o)))
  /\ (forall k v, In (k, v) (plain o) ->
        prop (to_json (enriched env log o)) k = to_json v).
Proof.
  destruct (enriched_keys env log o) as (fields & E & Hnd).
  rewrite E. rewrite !prop_to_json, !json_has_to_json by exact Hnd.
  rewrite <- E. repeat split.
  intros k v Hin. rewrite E, prop_to_json by exact Hnd. rewrite <- E.
  f_equal. simpl in Hin.
  repeat (destruct Hin as [Hin|Hin];
          [injection Hin as <- <-; reflexivity|]).
  destruct Hin.
Qed.

Lemma to_json_enriched_all env os : forall log,
  to_json (VArr (enriched_all env log os))
  = VArr (map to_json (enriched_all env log os)).
Proof.
  intros log. simpl. f_equal. revert log.
  induction os as [|o os IH]; intros log; simpl; [reflexivity|].
  f_equal. apply IH.
Qed.

Lemma enriched_all_each env os : forall log,
  Forall2 (fun o j => exists log', j = to_json (enriched env log' o))
          os (map to_json (enriched_all env log os)).
Proof.
  induction os as [|o os IH]; intros log; simpl; constructor.
  - now exists log.
  - apply IH.
Qed.

(** The route of one order, path by path. *)
Lemma get_commande_run env w rid :
  respond (get_commande rid) env w =
  match parseInt rid (Some 10) with
  | None => (reply 400 [Lit "ID de commande invalide."], w)
  | Some k =>
      match db_error env with
      | Some error =>
          (Some {| res_status :=
                     match error_response error with
                     | Some r => if ax_status r =? 0 then 500 else ax_status r
                     | None => 500
                     end;
                   res_body :=
                     Sent (let m := prop (data_of (error_response error))
                                         "message" in
                           if truthy m then m
                           else VStr "Erreur serveur lors de la récupération de la commande.") |},
           w)
      | None =>
          match find (fun o => id o =? k) (orders w) with
          | Some o =>
              (Some {| res_status := 200;
                       res_body := Json (to_json (enriched env (calls w) o)) |},
               logged w (lookups o))
          | None => (reply 404 [Lit "Commande non trouvée"], w)
          end
      end
  end.
Proof.
  unfold get_commande, respond, try_catch.
  destruct (parseInt rid (Some 10)) as [k|]; [|reflexivity].
  unfold Order_findByPk, db_guard, bind, get, ret.
  destruct (db_error env) as [error|]; [reflexivity|].
  destruct (find (fun o => id o =? k) (orders w)) as [o|]; [|reflexivity].
  rewrite enrich_run. reflexivity.
Qed.

(** *** Numeric identifiers are parsed *)

Lemma read_digits_started R s : forall n,
  exists m, read_digits R s (Some n) = Some m.
Proof.
  induction s as [|c s IH]; intros n; simpl; [eauto|].
  destruct (digit_value c) as [d|]; [|eauto].
  destruct (d <? R); [apply IH|eauto].
Qed.

Lemma digit_value_digit c :
  Wording.is_digit c = true ->
  digit_value c = Some (char_code c - 48) /\ char_code c - 48 < 10.
Proof.
  unfold Wording.is_digit, digit_value. intros H. rewrite H.
  apply andb_prop in H as [_ H]. apply Z.leb_le in H. split; [reflexivity|lia].
Qed.

Lemma read_digits_decimal c s :
  Wording.is_digit c = true ->
  exists m, read_digits 10 (String c s) None = Some m.
Proof.
  intros H. destruct (digit_value_digit c H) as [E Hlt].
  cbn [read_digits]. rewrite E.
  replace (char_code c - 48 <? 10) with true by (symmetry; now apply Z.ltb_lt).
  apply read_digits_started.
Qed.

(** A sign or a digit is not white space. *)
Lemma skip_ws_sign_or_digit c s :
  45 <= char_code c <= 57 -> skip_ws (String c s) = String c s.
Proof.
  intros H. cbn [skip_ws].
  replace (char_code c <=? 13) with false by (symmetry; apply Z.leb_gt; lia).
  replace (char_code c =? 32) with false by (symmetry; apply Z.eqb_neq; lia).
  replace (char_code c =? 194) with false by (symmetry; apply Z.eqb_neq; lia).
  replace (char_code c =? 225) with false by (symmetry; apply Z.eqb_neq; lia).
  replace (char_code c =? 226) with false by (symmetry; apply Z.eqb_neq; lia).
  replace (char_code c =? 227) with false by (symmetry; apply Z.eqb_neq; lia).
  replace (char_code c =? 239) with false by (symmetry; apply Z.eqb_neq; lia).
  rewrite andb_false_r. cbn [orb andb].
  destruct s as [|c1 [|c2 s3]]; reflexivity.
Qed.

(** The decimal call, without the radix bookkeeping. *)
Lemma parseInt_decimal s :
  parseInt s (Some 10) =
  let s0 := skip_ws s in
  let '(negative, s1) :=
    match s0 with
    | String "-" r => (true, r)
    | String "+" r => (false, r)
    | _ => (false, s0)
    end in
  match read_digits 10 s1 None with
  | Some n => Some (if negative then - n else n)
  | None => None
  end.
Proof. reflexivity. Qed.

Lemma numeric_parses s :
  Wording.numeric s = true -> exists k, parseInt s (Some 10) = Some k.
Proof.
  intros H. destruct s as [|c s']; [discriminate|].
  assert (Hc : 45 <= char_code c <= 57).
  { destruct c as [[] [] [] [] [] [] [] []]; cbn in H; try discriminate H;
      vm_compute; split; discriminate. }
  rewrite parseInt_decimal, (skip_ws_sign_or_digit c s' Hc).
  destruct c as [[] [] [] [] [] [] [] []]; cbn in H; try discriminate H;
    try (match goal with
         | |- context [String ?c s'] =>
             destruct (read_digits_decimal c s' eq_refl) as [m Hm]
         end;
         cbv beta iota zeta; rewrite Hm; eexists; reflexivity).
  destruct s' as [|c1 s'']; [discriminate H|].
  apply andb_prop in H as [H1 _].
  destruct (read_digits_decimal c1 s'' H1) as [m Hm].
  cbv beta iota zeta. rewrite Hm. eexists; reflexivity.
Qed.

(** Both read routes answer 200 with enriched orders when the table can
    be read: the requested order, or every order of the table in turn. *)
Lemma read_routes_enrich env w :
  db_error env = None ->
  (forall rid k o,
     parseInt rid (Some 10) = Some k ->
     find (fun o => id o =? k) (orders w) = Some o ->
     fst (respond (get_commande rid) env w)
     = Some {| res_status := 200;
               res_body := Json (to_json (enriched env (calls w) o)) |})
  /\ (exists js,
        fst (respond get_commandes env w)
        = Some {| res_status := 200; res_body := Json (VArr js) |}
        /\ Forall2 (fun o j => exists log, j = to_json (enriched env log o))
                   (orders w) js).
Proof.
  intros Hdb. split.
  - intros rid k o Hk Ho. now rewrite get_commande_run, Hk, Hdb, Ho.
  - exists (map to_json (enriched_all env (calls w) (orders w))). split.
    + rewrite get_commandes_run, Hdb. cbn [fst].
      now rewrite to_json_enriched_all.
    + apply enriched_all_each.
Qed.

(** C3.  Whenever the table can be read, GET /commandes/{id} answers 200
    with the enriched order it found and GET /commandes answers 200 with
    every order enriched.  In an enriched order, [userName] is the
    sentinel "Utilisateur inconnu" when the user lookup was rejected and
    [bookTitle] is the sentinel "Livre inconnu" when the book lookup was
    rejected, whatever the rejection; every field of the order itself is
    there with its value; and each of the two names is determined by its
    own lookup alone, whatever the other lookup settled to. *)
Theorem enrichment_fault_tolerant env w :
  db_error env = None ->
  (forall rid k o,
     parseInt rid (Some 10) = Some k ->
     find (fun o => id o =? k) (orders w) = Some o ->
     fst (respond (get_commande rid) env w)
     = Some {| res_status := 200;
               res_body := Json (to_json (enriched env (calls w) o)) |})
  /\ (exists js,
        fst (respond get_commandes env w)
        = Some {| res_status := 200; res_body := Json (VArr js) |}
        /\ Forall2 (fun o j => exists log, j = to_json (enriched env log o))
                   (orders w) js)
  /\ (forall log o,
        let j := to_json (enriched env log o) in
        (forall e, user_lookup env log o = Rejected e ->
                   prop j "userName" = VStr unknown_user)
        /\ (forall e, book_lookup env log o = Rejected e ->
                      prop j "bookTitle" = VStr unknown_book)
        /\ (forall k v, In (k, v) (plain o) -> prop j k = to_json v)
        /\ (forall env',
              user_lookup env' log o = user_lookup env log o ->
              prop (to_json (enriched env' log o)) "userName"
              = prop j "userName")
        /\ (forall env',
              book_lookup env' log o = book_lookup env log o ->
              prop (to_json (enriched env' log o)) "bookTitle"
              = prop j "bookTitle")).
Proof.
  intros Hdb. destruct (read_routes_enrich env w Hdb) as [Hone Hall].
  split; [exact Hone|]. split; [exact Hall|].
  intros log o j. unfold j.
  destruct (enriched_json env log o) as (Hu & Hb & _ & _ & Hown).
  repeat split.
  - intros e He. now rewrite Hu, He.
  - intros e He. now rewrite Hb, He.
  - exact Hown.
  - intros env' He.
    destruct (enriched_json env' log o) as (Hu' & _). now rewrite Hu', Hu, He.
  - intros env' He.
    destruct (enriched_json env' log o) as (_ & Hb' & _).
    now rewrite Hb', Hb, He.
Qed.

Lemma enrichment_fault_tolerant_witness :
  fst (respond (get_commande "2") Samples.env0 Samples.shop)
  = Some {| res_status := 200;
            res_body :=
              Json (to_json (enriched Samples.env0 [] Samples.order2)) |}
  /\ prop (to_json (enriched Samples.env0 [] Samples.order2)) "userName"
     = VStr unknown_user
  /\ prop (to_json (enriched Samples.env0 [] Samples.order2)) "bookId"
     = VNum 4.
Proof.
  destruct (enrichment_fault_tolerant Samples.env0 Samples.shop eq_refl)
    as (Hone & _ & Heach).
  destruct (Heach [] Samples.order2) as (Hu & _ & Hown & _).
  split; [|split].
  - exact (Hone "2" 2 Samples.order2 eq_refl eq_refl).
  - exact (Hu (Samples.http_error 404) eq_refl).
  - apply (Hown "bookId" (VNum 4)). simpl. tauto.
Defined.

(** C9 (as amended).  When the table can be read, GET /commandes/{id}
    answers 400 exactly when [parseInt(id, 10)] is NaN; otherwise the id
    is the integer read at the head of the parameter, and the answer is
    404 when no order has this id and 200 with the enriched order when one
    has.  A numeric parameter is always parsed, so never answered 400. *)
Theorem get_commande_answers env w rid :
  db_error env = None ->
  fst (respond (get_commande rid) env w)
  = match parseInt rid (Some 10) with
    | None => reply 400 [Lit "ID de commande invalide."]
    | Some k =>
        match find (fun o => id o =? k) (orders w) with
        | None => reply 404 [Lit "Commande non trouvée"]
        | Some o =>
            Some {| res_status := 200;
                    res_body := Json (to_json (enriched env (calls w) o)) |}
        end
    end
  /\ (Wording.numeric rid = true ->
      exists k, parseInt rid (Some 10) = Some k).
Proof.
  intros Hdb. split; [|apply numeric_parses].
  rewrite get_commande_run, Hdb.
  destruct (parseInt rid (Some 10)) as [k|]; [|reflexivity].
  destruct (find (fun o => id o =? k) (orders w)); reflexivity.
Qed.

Lemma get_commande_answers_witness :
  fst (respond (get_commande "abc") Samples.env0 Samples.shop)
  = reply 400 [Lit "ID de commande invalide."]
  /\ fst (respond (get_commande "7") Samples.env0 Samples.shop)
     = reply 404 [Lit "Commande non trouvée"]
  /\ exists k, parseInt "7" (Some 10) = Some k.
Proof.
  split; [|split].
  - exact (proj1 (get_commande_answers Samples.env0 Samples.shop "abc" eq_refl)).
  - exact (proj1 (get_commande_answers Samples.env0 Samples.shop "7" eq_refl)).
  - exact (proj2 (get_commande_answers Samples.env0 Samples.shop "7" eq_refl)
                 eq_refl).
Defined.

(** C9, the claim as worded.  The parameter "1abc" is not numeric, and
    the route answers it 200 with order 1. *)
Lemma get_commande_numeric_prefix_accepted :
  Wording.numeric "1abc" = false
  /\ fst (respond (get_commande "1abc") Samples.env0 Samples.shop)
     = Some {| res_status := 200;
               res_body :=
                 Json (to_json (enriched Samples.env0 [] Samples.order1)) |}.
Proof. split; reflexivity. Qed.

(** C10.  On both read routes (which answer with enriched orders, as
    above), a lookup fulfilled with a truthy payload gives the display
    field the payload's [name] (or [title]) as it is: when the payload
    has no such member the field is [undefined], so the serialised order
    has no [userName] (or [bookTitle]) member at all, and not the
    sentinel.  The sentinel is what a fulfilled lookup with a falsy
    payload gives. *)
Theorem enrichment_field_missing_in_payload env w :
  db_error env = None ->
  (forall rid k o,
     parseInt rid (Some 10) = Some k ->
     find (fun o => id o =? k) (orders w) = Some o ->
     fst (respond (get_commande rid) env w)
     = Some {| res_status := 200;
               res_body := Json (to_json (enriched env (calls w) o)) |})
  /\ (exists js,
        fst (respond get_commandes env w)
        = Some {| res_status := 200; res_body := Json (VArr js) |}
        /\ Forall2 (fun o j => exists log, j = to_json (enriched env log o))
                   (orders w) js)
  /\ (forall log o,
        let j := to_json (enriched env log o) in
        (forall r, user_lookup env log o = Fulfilled r ->
                   truthy (data r) = true ->
                   prop j "userName" = to_json (prop (data r) "name")
                   /\ (prop (data r) "name" = VUndefined ->
                       json_has j "userName" = false
                       /\ prop j "userName" <> VStr unknown_user))
        /\ (forall r, book_lookup env log o = Fulfilled r ->
                      truthy (data r) = true ->
                      prop j "bookTitle" = to_json (prop (data r) "title")
                      /\ (prop (data r) "title" = VUndefined ->
                          json_has j "bookTitle" = false
                          /\ prop j "bookTitle" <> VStr unknown_book))
        /\ (forall r, user_lookup env log o = Fulfilled r ->
                      truthy (data r) = false ->
                      prop j "userName" = VStr unknown_user)
        /\ (forall r, book_lookup env log o = Fulfilled r ->
                      truthy (data r) = false ->
                      prop j "bookTitle" = VStr unknown_book)).
Proof.
  intros Hdb. destruct (read_routes_enrich env w Hdb) as [Hone Hall].
  split; [exact Hone|]. split; [exact Hall|].
  intros log o j. unfold j.
  destruct (enriched_json env log o) as (Hu & Hb & Hhu & Hhb & _).
  split; [|split; [|split]].
  - intros r Hr Hd. rewrite Hu, Hhu, Hr. simpl. rewrite Hd.
    split; [reflexivity|]. intros Hn. rewrite Hn. split; [reflexivity|].
    discriminate.
  - intros r Hr Hd. rewrite Hb, Hhb, Hr. simpl. rewrite Hd.
    split; [reflexivity|]. intros Hn. rewrite Hn. split; [reflexivity|].
    discriminate.
  - intros r Hr Hd. rewrite Hu, Hr. simpl. now rewrite Hd.
  - intros r Hr Hd. rewrite Hb, Hr. simpl. now rewrite Hd.
Qed.

Lemma enrichment_field_missing_in_payload_witness :
  fst (respond (get_commande "2") Samples.env0 Samples.shop)
  = Some {| res_status := 200;
            res_body :=
              Json (to_json (enriched Samples.env0 [] Samples.order2)) |}
  /\ json_has (to_json (enriched Samples.env0 [] Samples.order2)) "bookTitle"
     = false
  /\ prop (to_json (enriched Samples.env0 [] Samples.order2)) "bookTitle"
     <> VStr unknown_book.
Proof.
  destruct (enrichment_field_missing_in_payload
              Samples.env0 Samples.shop eq_refl) as (Hone & _ & Heach).
  destruct (Heach [] Samples.order2) as (_ & Hb & _).
  split.
  - exact (Hone "2" 2 Samples.order2 eq_refl eq_refl).
  - exact (proj2 (Hb {| ax_status := 200; data := VObj [("id", VNum 4)] |}
                     eq_refl eq_refl) eq_refl).
Defined.

End CommandesProps.

(* ===================================================================== *)
(** ** Properties of the account service *)
(* ===================================================================== *)

Module UtilisateursProps.
Import Utilisateurs.

(** The login route, path by path. *)
Lemma post_login_run env users body :
  let email := prop (VObj body) "email" in
  let given := prop (VObj body) "password" in
  respond (post_login body) env users =
  (if truthy email && truthy given then
     match db_error env with
     | Some _ => reply 500 [Lit "Erreur serveur lors de la connexion."]
     | None =>
         match find (where_email email) users with
         | None => reply 401 [Lit "Email ou mot de passe invalide"]
         | Some user =>
             match bcrypt_compare env given (password user) with
             | Fulfilled true =>
                 Some {| res_status := 200;
                         res_body :=
                           Json (to_json
                                   (VObj [ ("message", VStr "Connexion réussie");
                                           ("user", VObj (userWithoutPassword user)) ])) |}
             | Fulfilled false => reply 401 [Lit "Email ou mot de passe invalide"]
             | Rejected _ => reply 500 [Lit "Erreur serveur lors de la connexion."]
             end
         end
     end
   else reply 400 [Lit "Email et mot de passe sont requis"],
   users).
Proof.
  intros email given. unfold post_login. fold email given.
  destruct (truthy email); simpl; [|reflexivity].
  destruct (truthy given); simpl; [|reflexivity].
  unfold respond, try_catch, bind, User_findOne, compare, send, send_json.
  destruct (db_error env); [reflexivity|].
  destruct (find (where_email email) users) as [user|]; [|reflexivity].
  destruct (bcrypt_compare env given (password user)) as [[]|]; reflexivity.
Qed.



End UtilisateursProps.

(* ===================================================================== *)
(** ** Properties of the catalog service *)
(* ===================================================================== *)

Module LivresProps.
Import Livres.

Lemma value_eqb_eq : forall a b, value_eqb a b = true -> a = b.
Proof.
  fix IH 1. intros a b. destruct a, b; simpl; try discriminate; intros H.
  - reflexivity.
  - reflexivity.
  - f_equal. now apply Bool.eqb_prop.
  - f_equal. now apply Z.eqb_eq.
  - f_equal. now apply String.eqb_eq.
  - f_equal. now apply Z.eqb_eq.
  - f_equal. revert items0 H.
    induction items as [|x xs IHxs]; intros [|y ys] H;
      try discriminate H; [reflexivity|].
    apply andb_prop in H as [H1 H2].
    f_equal; [apply IH; exact H1 | apply IHxs; exact H2].
  - f_equal. revert fields0 H.
    induction fields as [|[k x] xs IHxs]; intros [|[k' y] ys] H;
      try discriminate H; [reflexivity|].
    apply andb_prop in H as [H12 H3]. apply andb_prop in H12 as [H1 H2].
    apply String.eqb_eq in H1. subst k'.
    f_equal; [f_equal; apply IH; exact H2 | apply IHxs; exact H3].
Qed.

Lemma find_by_id_id (books : list Book) k b :
  find (fun x => id x =? k) books = Some b -> id b = k.
Proof.
  intros H. apply find_some in H as [_ H]. now apply Z.eqb_eq.
Qed.

Lemma find_write_row saved : forall books row,
  find (fun x => id x =? id saved) books = Some row ->
  find (fun x => id x =? id saved) (write_row saved books) = Some saved.
Proof.
  induction books as [|r books IH]; intros row; simpl; [discriminate|].
  destruct (id r =? id saved) eqn:E; simpl.
  - now rewrite Z.eqb_refl.
  - rewrite E. apply IH.
Qed.

Lemma find_write_row_other saved k : forall books,
  k <> id saved ->
  find (fun x => id x =? k) (write_row saved books)
  = find (fun x => id x =? k) books.
Proof.
  intros books Hk. induction books as [|r books IH]; simpl; [reflexivity|].
  destruct (id r =? id saved) eqn:E; simpl.
  - apply Z.eqb_eq in E.
    replace (id saved =? k) with false by (symmetry; apply Z.eqb_neq; lia).
    replace (id r =? k) with false by (symmetry; apply Z.eqb_neq; lia).
    reflexivity.
  - now rewrite IH.
Qed.

Lemma apply_update_columns b t a y :
  id (apply_update b t a y) = id b
  /\ title (apply_update b t a y) = (if truthy t then t else title b)
  /\ author (apply_update b t a y) = (if truthy a then a else author b)
  /\ year (apply_update b t a y) = (if is_undefined y then year b else y)
  /\ createdAt (apply_update b t a y) = createdAt b
  /\ updatedAt (apply_update b t a y) = updatedAt b.
Proof.
  unfold apply_update.
  destruct (truthy t), (truthy a), (is_undefined y); simpl; repeat split.
Qed.

Lemma unchanged_same row book :
  changed row book = false ->
  id book = id row -> createdAt book = createdAt row ->
  updatedAt book = updatedAt row ->
  book = row.
Proof.
  unfold changed. intros H Hi Hc Hu.
  apply negb_false_iff in H.
  apply andb_prop in H as [H Hy]. apply andb_prop in H as [Ht Ha].
  apply value_eqb_eq in Ht, Ha, Hy.
  destruct row, book; simpl in *; congruence.
Qed.

(** The catalog answers 200 on the lookup of a book only with an object:
    the payload of a fulfilled book call of the order service is then
    never [null], and its [title] can be read. *)
Lemma get_livre_payload env books rid rs books' :
  respond (get_livre rid) env books = (Some rs, books') ->
  res_status rs = 200 ->
  exists fields, res_body rs = Json (VObj fields) /\ nullish (VObj fields) = false.
Proof.
  unfold get_livre, respond, try_catch, bind, Book_findByPk, send_json, send.
  destruct (find_error env); [intros H; inversion H; subst; discriminate|].
  destruct (match parseInt rid None with
            | Some k => find (fun b => id b =? k) books
            | None => None
            end) as [b|]; intros H; inversion H; subst; [|discriminate].
  intros _. eexists. split; reflexivity.
Qed.

(** The update route on a book that the lookup finds, when neither the
    lookup nor the save raises: a request without any of the three fields
    is refused; otherwise the row is the instance after the assignments,
    stamped when a column changed. *)
Lemma put_livre_run env books rid body k b :
  find_error env = None -> save_error env = None ->
  parseInt rid None = Some k ->
  find (fun x => id x =? k) books = Some b ->
  let title := prop (VObj body) "title" in
  let author := prop (VObj body) "author" in
  let year := prop (VObj body) "year" in
  respond (put_livre rid body) env books =
  if negb (truthy title) && negb (truthy author) && is_undefined year then
    (reply 400 [Lit "Au moins un champ (titre, auteur, année) doit être fourni pour la mise à jour"],
     books)
  else
    let book := apply_update b title author year in
    if changed b book then
      let saved := {| id := id book; title := Livres.title book;
                      author := Livres.author book; year := Livres.year book;
                      createdAt := createdAt book; updatedAt := db_now env |} in
      (Some {| res_status := 200;
               res_body := Json (to_json (VObj (plain saved))) |},
       write_row saved books)
    else
      (Some {| res_status := 200;
               res_body := Json (to_json (VObj (plain book))) |},
       books).
Proof.
  intros Hf Hs Hk Hb title author year.
  unfold put_livre. fold title author year.
  unfold respond, try_catch, bind, Book_findByPk. rewrite Hf, Hk, Hb.
  destruct (negb (truthy title) && negb (truthy author) && is_undefined year);
    [reflexivity|].
  unfold Book_save. rewrite Hs.
  destruct (apply_update_columns b title author year) as (Hid & _).
  rewrite Hid, (find_by_id_id books k b Hb), Hb.
  destruct (changed b (apply_update b title author year)); reflexivity.
Qed.

(** C8.  For a book that exists, when the datastore raises no error:
    a request with none of [title], [author], [year] is answered 400 and
    the table is left as it was; any other request is answered 200 with
    the saved book, which is the row of that id afterwards, each of whose
    three columns holds the supplied value when one was applied and its
    former value otherwise (always so for a field that was not supplied),
    the other rows being untouched; in particular a request with only
    [year] sets [year] and keeps [title] and [author]. *)
Theorem put_livre_partial_update env books rid body k b :
  find_error env = None -> save_error env = None ->
  parseInt rid None = Some k ->
  find (fun x => id x =? k) books = Some b ->
  let title := prop (VObj body) "title" in
  let author := prop (VObj body) "author" in
  let year := prop (VObj body) "year" in
  (title = VUndefined -> author = VUndefined -> year = VUndefined ->
   respond (put_livre rid body) env books
   = (reply 400 [Lit "Au moins un champ (titre, auteur, année) doit être fourni pour la mise à jour"],
      books))
  /\ (negb (truthy title) && negb (truthy author) && is_undefined year = false ->
      exists saved books',
        respond (put_livre rid body) env books
        = (Some {| res_status := 200;
                   res_body := Json (to_json (VObj (plain saved))) |}, books')
        /\ find (fun x => id x =? k) books' = Some saved
        /\ id saved = id b
        /\ Livres.title saved = (if truthy title then title else Livres.title b)
        /\ Livres.author saved
           = (if truthy author then author else Livres.author b)
        /\ Livres.year saved
           = (if is_undefined year then Livres.year b else year)
        /\ (forall k', k' <> k ->
              find (fun x => id x =? k') books'
              = find (fun x => id x =? k') books))
  /\ (title = VUndefined -> author = VUndefined -> year <> VUndefined ->
      exists saved books',
        respond (put_livre rid body) env books
        = (Some {| res_status := 200;
                   res_body := Json (to_json (VObj (plain saved))) |}, books')
        /\ find (fun x => id x =? k) books' = Some saved
        /\ Livres.year saved = year
        /\ Livres.title saved = Livres.title b
        /\ Livres.author saved = Livres.author b).
Proof.
  intros Hf Hs Hk Hb title author year.
  pose proof (put_livre_run env books rid body k b Hf Hs Hk Hb) as Hrun.
  cbv zeta in Hrun. fold title author year in Hrun.
  pose proof (find_by_id_id books k b Hb) as Hkb.
  destruct (apply_update_columns b title author year)
    as (Hid & Ht & Ha & Hy & Hc & Hu).
  assert (Happlied :
    negb (truthy title) && negb (truthy author) && is_undefined year = false ->
    exists saved books',
      respond (put_livre rid body) env books
      = (Some {| res_status := 200;
                 res_body := Json (to_json (VObj (plain saved))) |}, books')
      /\ find (fun x => id x =? k) books' = Some saved
      /\ id saved = id b
      /\ Livres.title saved = (if truthy title then title else Livres.title b)
      /\ Livres.author saved
         = (if truthy author then author else Livres.author b)
      /\ Livres.year saved
         = (if is_undefined year then Livres.year b else year)
      /\ (forall k', k' <> k ->
            find (fun x => id x =? k') books'
            = find (fun x => id x =? k') books)).
  { intros Hsome. rewrite Hsome in Hrun.
    destruct (changed b (apply_update b title author year)) eqn:Hch.
    - eexists _, _. split; [exact Hrun|].
      cbn [id Livres.title Livres.author Livres.year].
      repeat split; auto.
      + rewrite <- Hkb, <- Hid.
        apply (find_write_row
                 {| id := id (apply_update b title author year);
                    title := Livres.title (apply_update b title author year);
                    author := Livres.author (apply_update b title author year);
                    year := Livres.year (apply_update b title author year);
                    createdAt := createdAt (apply_update b title author year);
                    updatedAt := db_now env |} books b).
        cbn [id]. now rewrite Hid, Hkb.
      + intros k' Hk'. apply find_write_row_other. cbn [id]. congruence.
    - eexists _, _. split; [exact Hrun|].
      rewrite (unchanged_same b _ Hch Hid Hc Hu) at 1.
      repeat split; auto. }
  split; [|split].
  - intros Et Ea Ey. rewrite Hrun, Et, Ea, Ey. reflexivity.
  - exact Happlied.
  - intros Et Ea Ey.
    destruct Happlied as (saved & books' & H1 & H2 & _ & H4 & H5 & H6 & _).
    { rewrite Et, Ea. destruct year; try reflexivity. congruence. }
    exists saved, books'. rewrite H4, H5, H6, Et, Ea.
    repeat split; auto. destruct year; try reflexivity. congruence.
Qed.

Lemma put_livre_partial_update_witness :
  exists saved books',
    respond (put_livre "2" [("year", VNum 1886)])
            Samples.catalog_env Samples.catalog
    = (Some {| res_status := 200;
               res_body := Json (to_json (VObj (plain saved))) |}, books')
    /\ find (fun x => id x =? 2) books' = Some saved
    /\ year saved = VNum 1886
    /\ title saved = VStr "Germinal"
    /\ author saved = VStr "Zola".
Proof.
  destruct (put_livre_partial_update
              Samples.catalog_env Samples.catalog "2" [("year", VNum 1886)]
              2 Samples.germinal eq_refl eq_refl eq_refl eq_refl)
    as (_ & _ & H).
  apply H; [reflexivity|reflexivity|discriminate].
Defined.

End LivresProps.

(* ===================================================================== *)
(** ** Identifiers written in decimal are read back *)
(* ===================================================================== *)

Module UrlsProps.
Import Urls.

(** The one-argument call on a text without hexadecimal prefix. *)
Lemma parseInt_plain s :
  parseInt s None =
  let s0 := skip_ws s in
  let '(negative, s1) :=
    match s0 with
    | String "-" r => (true, r)
    | String "+" r => (false, r)
    | _ => (false, s0)
    end in
  let '(R, s2) :=
    match strip_hex_prefix s1 with
    | Some r => (16, r)
    | None => (10, s1)
    end in
  match read_digits R s2 None with
  | Some n => Some (if negative then - n else n)
  | None => None
  end.
Proof. reflexivity. Qed.

Lemma read_digit c s acc k :
  digit_value c = Some k -> k < 10 ->
  read_digits 10 (String c s) (Some acc)
  = read_digits 10 s (Some (acc * 10 + k)).
Proof.
  intros Hc Hk. cbn [read_digits]. rewrite Hc.
  now replace (k <? 10) with true by (symmetry; apply Z.ltb_lt; exact Hk).
Qed.

Ltac read_one_digit :=
  match goal with
  | |- context [read_digits 10 (String ?c ?s) (Some ?acc)] =>
      let r := eval vm_compute in (digit_value c) in
      match r with
      | Some ?k => rewrite (read_digit c s acc k eq_refl eq_refl)
      end
  end.

Lemma read_digits_acc d : forall acc,
  read_digits 10 (NilEmpty.string_of_uint d) (Some (Z.pos acc))
  = Some (Z.pos (Pos.of_uint_acc d acc)).
Proof.
  induction d; intros acc; cbn [NilEmpty.string_of_uint Pos.of_uint_acc];
    [reflexivity|..];
    read_one_digit;
    rewrite <- IHd; f_equal; f_equal; lia.
Qed.

Lemma read_digits_zero d :
  read_digits 10 (NilEmpty.string_of_uint d) (Some 0)
  = Some (Z.of_N (Pos.of_uint d)).
Proof.
  induction d; cbn [NilEmpty.string_of_uint Pos.of_uint];
    [reflexivity|..];
    read_one_digit;
    first [exact IHd | apply read_digits_acc].
Qed.

Lemma read_digits_fresh d :
  d <> Decimal.Nil ->
  read_digits 10 (NilEmpty.string_of_uint d) None
  = Some (Z.of_N (Pos.of_uint d)).
Proof.
  intros Hd. rewrite <- read_digits_zero.
  destruct d; [contradiction|..]; reflexivity.
Qed.

Lemma digits_not_hex d : strip_hex_prefix (NilEmpty.string_of_uint d) = None.
Proof.
  destruct d as [|d|d|d|d|d|d|d|d|d|d]; try reflexivity.
  destruct d; reflexivity.
Qed.

Lemma digits_start d :
  d <> Decimal.Nil ->
  exists c s, NilEmpty.string_of_uint d = String c s
              /\ 48 <= char_code c <= 57.
Proof.
  intros Hd. destruct d; [contradiction|..];
    eexists _, _; (split; [reflexivity|]); vm_compute; split; discriminate.
Qed.

(** A text that is empty or begins with no decimal digit ends the number
    read before it. *)
Lemma read_digits_stop rest :
  match rest with
  | String c _ => Wording.is_digit c = false
  | EmptyString => True
  end ->
  forall s acc, read_digits 10 (s ++ rest)%string acc = read_digits 10 s acc.
Proof.
  intros Hrest. induction s as [|c s IH]; intros acc.
  - cbn [String.append]. destruct rest as [|c r]; [reflexivity|].
    cbn [read_digits]. unfold digit_value.
    unfold Wording.is_digit in Hrest. rewrite Hrest.
    destruct ((97 <=? char_code c) && (char_code c <=? 122)) eqn:E1.
    + apply andb_prop in E1 as [E1 _]. apply Z.leb_le in E1.
      now replace (char_code c - 87 <? 10) with false
        by (symmetry; apply Z.ltb_ge; lia).
    + destruct ((65 <=? char_code c) && (char_code c <=? 90)) eqn:E2;
        [|reflexivity].
      apply andb_prop in E2 as [E2 _]. apply Z.leb_le in E2.
      now replace (char_code c - 55 <? 10) with false
        by (symmetry; apply Z.ltb_ge; lia).
  - cbn [String.append read_digits].
    destruct (digit_value c) as [k|]; [|reflexivity].
    destruct (k <? 10); [apply IH|reflexivity].
Qed.

Lemma parse_unsigned d rest :
  d <> Decimal.Nil ->
  match rest with
  | String c _ => Wording.is_digit c = false
  | EmptyString => True
  end ->
  parseInt (NilEmpty.string_of_uint d ++ rest) (Some 10)
  = Some (Z.of_N (Pos.of_uint d))
  /\ parseInt (String "-" (NilEmpty.string_of_uint d ++ rest)) (Some 10)
     = Some (- Z.of_N (Pos.of_uint d))
  /\ parseInt (NilEmpty.string_of_uint d) None
     = Some (Z.of_N (Pos.of_uint d))
  /\ parseInt (String "-" (NilEmpty.string_of_uint d)) None
     = Some (- Z.of_N (Pos.of_uint d)).
Proof.
  intros Hd Hrest.
  pose proof (read_digits_fresh d Hd) as Hread.
  pose proof (read_digits_stop rest Hrest (NilEmpty.string_of_uint d) None)
    as Hstop.
  pose proof (digits_not_hex d) as Hhex.
  destruct (digits_start d Hd) as (c & s & E & Hc).
  rewrite E in *. cbn [String.append] in *.
  assert (Hminus : forall r, skip_ws (String "-" r) = String "-" r).
  { intros r. apply CommandesProps.skip_ws_sign_or_digit.
    vm_compute. split; discriminate. }
  assert (Hdigit : forall r, skip_ws (String c r) = String c r).
  { intros r. apply CommandesProps.skip_ws_sign_or_digit. lia. }
  assert (Hsign : forall r : string,
            match String c r with
            | String "-" r' => (true, r')
            | String "+" r' => (false, r')
            | _ => (false, String c r)
            end = (false, String c r)).
  { intros r.
    destruct c as [[] [] [] [] [] [] [] []]; try reflexivity;
      vm_compute in Hc; destruct Hc as [Hc _]; now elim Hc. }
  repeat split.
  - rewrite CommandesProps.parseInt_decimal, Hdigit. cbv zeta.
    specialize (Hsign (s ++ rest)%string). cbv beta iota in Hsign |- *.
    now rewrite Hsign, Hstop, Hread.
  - rewrite CommandesProps.parseInt_decimal, Hminus. cbv zeta beta iota.
    now rewrite Hstop, Hread.
  - rewrite parseInt_plain, Hdigit. cbv zeta.
    specialize (Hsign s). cbv beta iota in Hsign |- *.
    now rewrite Hsign, Hhex, Hread.
  - rewrite parseInt_plain, Hminus. cbv zeta beta iota.
    now rewrite Hhex, Hread.
Qed.

(** An integer written in decimal is read back by [parseInt], with or
    without the radix, and whatever follows it in the text when that does
    not begin with a digit. *)
Lemma parseInt_decimal_text n :
  parseInt (decimal n) None = Some n
  /\ forall rest,
       match rest with
       | String c _ => Wording.is_digit c = false
       | EmptyString => True
       end ->
       parseInt (decimal n ++ rest) (Some 10) = Some n.
Proof.
  unfold decimal. destruct n as [|p|p]; cbn [Z.to_int NilZero.string_of_int].
  - split; [reflexivity|]. intros rest Hrest.
    destruct (parse_unsigned (Decimal.D0 Decimal.Nil) rest) as (H & _);
      [discriminate|exact Hrest|exact H].
  - pose proof (DecimalPos.Unsigned.to_uint_nonnil p) as Hd.
    pose proof (DecimalPos.Unsigned.of_to p) as Hp.
    assert (E : NilZero.string_of_uint (Pos.to_uint p)
                = NilEmpty.string_of_uint (Pos.to_uint p)).
    { unfold NilZero.string_of_uint. now destruct (Pos.to_uint p). }
    rewrite E. split.
    + destruct (parse_unsigned (Pos.to_uint p) "" Hd I) as (_ & _ & H & _).
      now rewrite H, Hp.
    + intros rest Hrest.
      destruct (parse_unsigned (Pos.to_uint p) rest Hd Hrest) as (H & _).
      now rewrite H, Hp.
  - pose proof (DecimalPos.Unsigned.to_uint_nonnil p) as Hd.
    pose proof (DecimalPos.Unsigned.of_to p) as Hp.
    assert (E : NilZero.string_of_uint (Pos.to_uint p)
                = NilEmpty.string_of_uint (Pos.to_uint p)).
    { unfold NilZero.string_of_uint. now destruct (Pos.to_uint p). }
    rewrite E. split.
    + destruct (parse_unsigned (Pos.to_uint p) "" Hd I) as (_ & _ & _ & H).
      now rewrite H, Hp.
    + intros rest Hrest. cbn [String.append].
      destruct (parse_unsigned (Pos.to_uint p) rest Hd Hrest) as (_ & H & _).
      now rewrite H, Hp.
Qed.

Lemma append_empty s : (s ++ "")%string = s.
Proof. induction s; cbn; congruence. Qed.

Lemma parseInt_decimal_back n : parseInt (decimal n) (Some 10) = Some n.
Proof.
  destruct (parseInt_decimal_text n) as [_ H].
  specialize (H "" I). now rewrite append_empty in H.
Qed.

End UrlsProps.

(* ===================================================================== *)
(** ** Further properties of the order service *)
(* ===================================================================== *)

Module CommandesMore.
Import Commandes.
Import CommandesProps.

(** X1.  The two read routes never write: whatever the peers answer and
    whether or not the datastore raises, the order table and its counter
    are the same after GET /commandes and after GET /commandes/{id}, and
    both routes always answer. *)
Theorem read_routes_write_nothing env w rid :
  (exists rs, fst (respond get_commandes env w) = Some rs)
  /\ orders (snd (respond get_commandes env w)) = orders w
  /\ next_id (snd (respond get_commandes env w)) = next_id w
  /\ (exists rs, fst (respond (get_commande rid) env w) = Some rs)
  /\ orders (snd (respond (get_commande rid) env w)) = orders w
  /\ next_id (snd (respond (get_commande rid) env w)) = next_id w.
Proof.
  rewrite get_commandes_run, get_commande_run.
  destruct (db_error env) as [e|];
    destruct (parseInt rid (Some 10)) as [k|];
    try destruct (find (fun o => id o =? k) (orders w));
    cbn; repeat split; eexists; reflexivity.
Qed.

(** X2.  The list route issues two calls per order, user then book, in
    the order of the table, and none when the table cannot be read; the
    route of one order issues the two calls of the order it found, and
    none when the id does not parse, the table cannot be read or no order
    has the id. *)
Theorem read_routes_calls env w rid :
  issued w (snd (respond get_commandes env w))
  = match db_error env with
    | None => flat_map lookups (orders w)
    | Some _ => []
    end
  /\ issued w (snd (respond (get_commande rid) env w))
     = match parseInt rid (Some 10), db_error env with
       | Some k, None =>
           match find (fun o => id o =? k) (orders w) with
           | Some o => [GetUser (userId o); GetBook (bookId o)]
           | None => []
           end
       | _, _ => []
       end.
Proof.
  rewrite get_commandes_run, get_commande_run. split.
  - destruct (db_error env); cbn [snd];
      [apply issued_nil | apply issued_app]; reflexivity.
  - destruct (parseInt rid (Some 10)) as [k|]; cbn [snd];
      [|apply issued_nil; reflexivity].
    destruct (db_error env); cbn [snd]; [apply issued_nil; reflexivity|].
    destruct (find (fun o => id o =? k) (orders w)); cbn [snd];
      [apply issued_app | apply issued_nil]; reflexivity.
Qed.


Lemma sound_created env w u b :
  Librairie.sound w ->
  Librairie.sound {| orders := orders w ++ [created env w u b];
                     next_id := next_id w + 1;
                     calls := calls w ++ [GetUser u; GetBook b] |}.
Proof.
  intros [Hnd Hlt]. split; cbn [orders next_id].
  - rewrite map_app. cbn [map created id].
    apply NoDup_app; [exact Hnd | repeat constructor; intros [] |].
    intros k Hin [Hk|[]]. subst k.
    apply in_map_iff in Hin as (o & Ho & Hin).
    rewrite Forall_forall in Hlt. specialize (Hlt o Hin). lia.
  - apply Forall_app. split.
    + eapply Forall_impl; [|exact Hlt]. cbn. intros; lia.
    + repeat constructor. cbn. lia.
Qed.

(** X3.  The keys of the order table stay distinct and below the counter
    through every request to the create route, whatever its outcome; a
    created order takes the value of the counter as its key. *)
Theorem post_commandes_keeps_keys env body w rs w' :
  Librairie.sound w ->
  respond (post_commandes body) env w = (Some rs, w') ->
  Librairie.sound w'
  /\ (res_status rs = 201 ->
      exists o, orders w' = orders w ++ [o]
                /\ id o = next_id w
                /\ next_id w' = next_id w + 1
                /\ ~ In (id o) (map id (orders w))).
Proof.
  intros Hs Hrun.
  assert (Hfresh : ~ In (next_id w) (map id (orders w))).
  { destruct Hs as [_ Hlt]. intros Hin.
    apply in_map_iff in Hin as (o & Ho & Hin).
    rewrite Forall_forall in Hlt. specialize (Hlt o Hin). lia. }
  revert Hrun. rewrite post_commandes_run. cbv zeta. intros Hrun.
  repeat match type of Hrun with
         | context [if ?c then _ else _] => destruct c eqn:?
         | context [match ?x with _ => _ end] => destruct x eqn:?
         end;
    unfold reply in Hrun; inversion Hrun; subst; clear Hrun; cbn [res_status];
    try (split; [exact Hs | discriminate]).
  split; [now apply sound_created|].
  intros _. eexists. cbn [orders next_id]. repeat split. exact Hfresh.
Qed.


(** X5.  The route of one order reads the integer at the head of the id
    and ignores what follows: with any text that is empty or does not
    begin with a decimal digit appended to the decimal text of an
    integer, the request is answered, and leaves the service, exactly as
    the request for that integer. *)
Theorem get_commande_ignores_suffix env w n rest :
  match rest with
  | String c _ => Wording.is_digit c = false
  | EmptyString => True
  end ->
  respond (get_commande (Urls.decimal n ++ rest)) env w
  = respond (get_commande (Urls.decimal n)) env w.
Proof.
  intros Hrest. rewrite !get_commande_run.
  destruct (UrlsProps.parseInt_decimal_text n) as [_ Hparse].
  now rewrite (Hparse rest Hrest), UrlsProps.parseInt_decimal_back.
Qed.



(** X7.  When both validations pass and the insertion raises, the create
    route answers 500, with the database message when the name of the
    error contains "Sequelize" and the internal message otherwise; the
    two calls were issued and nothing was written. *)
Theorem post_commandes_insert_fails env body w ru rb error :
  let userId := prop (VObj body) "userId" in
  let bookId := prop (VObj body) "bookId" in
  truthy userId = true -> truthy bookId = true ->
  peers env (calls w) (GetUser userId) = Fulfilled ru ->
  peers env (calls w ++ [GetUser userId]) (GetBook bookId) = Fulfilled rb ->
  nullish (data rb) = false ->
  db_error env = Some error ->
  respond (post_commandes body) env w
  = (reply 500
       [Lit (if includes "Sequelize" (error_name error)
             then "Erreur base de données lors de la création de la commande."
             else "Erreur serveur interne lors de la création de la commande.")],
     logged w [GetUser userId; GetBook bookId]).
Proof.
  intros userId bookId Hu Hb Hpu Hpb Hnull Hdb.
  rewrite post_commandes_run. cbv zeta. fold userId bookId.
  rewrite Hu, Hb, Hpu, Hpb, Hnull, Hdb. cbn [andb].
  destruct (error_name error) as [|c s] eqn:E; [reflexivity|].
  cbn [String.eqb negb andb].
  now destruct (includes "Sequelize" (String c s)).
Qed.

(** When the lookup of one order raises, the route answers with the
    status and the message the error carries in its [response], and with
    500 and its own message when the error carries none (as the errors of
    the datastore do); nothing is called and nothing is written. *)
Theorem get_commande_lookup_fails env w rid k error :
  parseInt rid (Some 10) = Some k ->
  db_error env = Some error ->
  snd (respond (get_commande rid) env w) = w
  /\ (error_response error = None ->
      fst (respond (get_commande rid) env w)
      = Some {| res_status := 500;
                res_body :=
                  Sent (VStr "Erreur serveur lors de la récupération de la commande.") |})
  /\ (forall r, error_response error = Some r ->
        ax_status r <> 0 ->
        truthy (prop (data r) "message") = true ->
        fst (respond (get_commande rid) env w)
        = Some {| res_status := ax_status r;
                  res_body := Sent (prop (data r) "message") |}).
Proof.
  intros Hk Hdb. rewrite get_commande_run, Hk, Hdb. cbn [fst snd].
  split; [reflexivity|]. split.
  - intros ->. reflexivity.
  - intros r -> Hs Ht. cbn [data_of]. rewrite Ht.
    now replace (ax_status r =? 0) with false
      by (symmetry; now apply Z.eqb_neq).
Qed.

End CommandesMore.

(* ===================================================================== *)
(** ** Further properties of the account service *)
(* ===================================================================== *)

Module UtilisateursMore.
Import Utilisateurs.
Import UtilisateursProps.

(** A login whose email matches a user and whose password the
    digest comparison accepts is answered 200 with the greeting and that
    user's id, email, name and timestamps; the table is left as it was. *)
Theorem login_succeeds env users body user :
  let email := prop (VObj body) "email" in
  let given := prop (VObj body) "password" in
  truthy email = true -> truthy given = true ->
  db_error env = None ->
  find (where_email email) users = Some user ->
  bcrypt_compare env given (password user) = Fulfilled true ->
  respond (post_login body) env users
  = (Some {| res_status := 200;
             res_body :=
               Json (VObj [ ("message", VStr "Connexion réussie");
                            ("user",
                             VObj [ ("id", VNum (id user));
                                    ("email", VStr (Utilisateurs.email user));
                                    ("name", VStr (name user));
                                    ("createdAt", VDate (createdAt user));
                                    ("updatedAt", VDate (updatedAt user)) ]) ]) |},
     users).
Proof.
  intros email given He Hg Hdb Hfind Hcmp.
  rewrite post_login_run. fold email given.
  now rewrite He, Hg, Hdb, Hfind, Hcmp.
Qed.


(** X9.  The login route answers 400 exactly when the email or the
    password is falsy, and then before any lookup: the answer is the same
    whether or not the table can be read. *)
Theorem login_invalid_input env users body :
  exists rs,
    fst (respond (post_login body) env users) = Some rs
    /\ (res_status rs = 400 <->
        truthy (prop (VObj body) "email")
        && truthy (prop (VObj body) "password") = false)
    /\ (res_status rs = 400 ->
        rs = {| res_status := 400;
                res_body := Text [Lit "Email et mot de passe sont requis"] |}).
Proof.
  rewrite post_login_run. cbv zeta.
  destruct (truthy (prop (VObj body) "email")
            && truthy (prop (VObj body) "password")).
  2:{ eexists. split; [reflexivity|]. cbn. tauto. }
  destruct (db_error env);
    [eexists; split; [reflexivity|]; cbn;
     split; [split; discriminate | discriminate]|].
  destruct (find (where_email (prop (VObj body) "email")) users) as [user|];
    [|eexists; split; [reflexivity|]; cbn;
      split; [split; discriminate | discriminate]].
  destruct (bcrypt_compare env (prop (VObj body) "password") (password user))
    as [[]|]; eexists; (split; [reflexivity|]); cbn;
    (split; [split; discriminate | discriminate]).
Qed.


End UtilisateursMore.

(* ===================================================================== *)
(** ** Properties of registration and of the user lookup *)
(* ===================================================================== *)

Module InscriptionProps.
Import Utilisateurs.
Import Inscription.

(** The lookup route, path by path. *)
Lemma get_user_run env (rows : list User) rid :
  respond (get_user rid) env rows =
  (match db_error env with
   | Some _ =>
       reply 500
         [Lit "Erreur serveur lors de la récupération de l'utilisateur."]
   | None =>
       match match parseInt rid None with
             | Some k => find (fun u => id u =? k) rows
             | None => None
             end with
       | Some user =>
           Some {| res_status := 200;
                   res_body := Json (to_json (VObj (userWithoutPassword user))) |}
       | None => reply 404 [Lit "Utilisateur non trouvé"]
       end
   end, rows).
Proof.
  unfold get_user, respond, try_catch, bind, User_findByPk, send_json, send.
  destruct (db_error env); [reflexivity|].
  destruct (match parseInt rid None with
            | Some k => find (fun u => id u =? k) rows
            | None => None
            end); reflexivity.
Qed.


(** The registration route, path by path, for a request with its three
    fields and a password that bcrypt hashes. *)
Lemma post_register_run env r body digest :
  let email := prop (VObj body) "email" in
  let password := prop (VObj body) "password" in
  let name := prop (VObj body) "name" in
  truthy email = true -> truthy password = true -> truthy name = true ->
  bcrypt_hash env password = Fulfilled digest ->
  respond (post_register body) env r =
  match accepted env email name with
  | inl error =>
      respond
        (if (error_name error =? "SequelizeUniqueConstraintError")%string then
           send 409 (Text [Lit "Cet email est déjà utilisé"])
         else if (error_name error =? "SequelizeValidationError")%string then
           details <- messages (error_errors error) ;;
           send_json 400 (VObj [ ("error", VStr "Validation Error");
                                 ("details", details) ])
         else send 500 (Text [Lit "Erreur serveur lors de l'inscription."]))
        env r
  | inr (email_text, name_text) =>
      match db_error (account env) with
      | Some error =>
          respond
            (if (error_name error =? "SequelizeUniqueConstraintError")%string
             then send 409 (Text [Lit "Cet email est déjà utilisé"])
             else if (error_name error =? "SequelizeValidationError")%string
             then
               details <- messages (error_errors error) ;;
               send_json 400 (VObj [ ("error", VStr "Validation Error");
                                     ("details", details) ])
             else send 500 (Text [Lit "Erreur serveur lors de l'inscription."]))
            env r
      | None =>
          if existsb (fun u => (Utilisateurs.email u =? email_text)%string)
                     (users r)
          then (reply 409 [Lit "Cet email est déjà utilisé"], r)
          else
            let u := {| id := next_id r;
                        Utilisateurs.email := email_text;
                        Utilisateurs.password := digest;
                        Utilisateurs.name := name_text;
                        createdAt := db_now env;
                        updatedAt := db_now env |} in
            (Some {| res_status := 201;
                     res_body :=
                       Json (to_json (VObj (registered email name u))) |},
             {| users := users r ++ [u]; next_id := next_id r + 1 |})
      end
  end.
Proof.
  intros email password name He Hp Hn Hh.
  unfold post_register. fold email password name.
  rewrite He, Hp, Hn. cbn [negb orb].
  unfold respond at 1. unfold try_catch, bind at 1, hash. rewrite Hh.
  unfold bind at 1, User_create.
  destruct (accepted env email name) as [error|[email_text name_text]];
    [reflexivity|].
  destruct (db_error (account env)) as [error|]; [reflexivity|].
  destruct (existsb _ (users r)); reflexivity.
Qed.

Lemma email_taken e (rows : list User) :
  existsb (fun u => (email u =? e)%string) rows = true
  <-> In e (map email rows).
Proof.
  rewrite existsb_exists, in_map_iff. split.
  - intros (u & Hin & Heq). apply String.eqb_eq in Heq. eauto.
  - intros (u & Heq & Hin). exists u. split; [exact Hin|].
    now apply String.eqb_eq.
Qed.

Lemma email_free e (rows : list User) :
  ~ In e (map email rows) ->
  existsb (fun u => (email u =? e)%string) rows = false.
Proof.
  intros H. destruct (existsb _ rows) eqn:E; [|reflexivity].
  apply email_taken in E. contradiction.
Qed.

(** The row a successful registration inserts. *)
Lemma post_register_new env r body digest email_text name_text :
  let email := prop (VObj body) "email" in
  let password := prop (VObj body) "password" in
  let name := prop (VObj body) "name" in
  truthy email = true -> truthy password = true -> truthy name = true ->
  bcrypt_hash env password = Fulfilled digest ->
  accepted env email name = inr (email_text, name_text) ->
  db_error (account env) = None ->
  ~ In email_text (map Utilisateurs.email (users r)) ->
  let u := {| id := next_id r;
              Utilisateurs.email := email_text;
              Utilisateurs.password := digest;
              Utilisateurs.name := name_text;
              createdAt := db_now env;
              updatedAt := db_now env |} in
  respond (post_register body) env r
  = (Some {| res_status := 201;
             res_body := Json (to_json (VObj (registered email name u))) |},
     {| users := users r ++ [u]; next_id := next_id r + 1 |}).
Proof.
  intros email password name He Hp Hn Hh Hacc Hdb Hfree u.
  rewrite (post_register_run env r body digest He Hp Hn Hh).
  fold email name. now rewrite Hacc, Hdb, (email_free _ _ Hfree).
Qed.

Lemma post_register_taken env r body digest email_text name_text :
  let email := prop (VObj body) "email" in
  let password := prop (VObj body) "password" in
  let name := prop (VObj body) "name" in
  truthy email = true -> truthy password = true -> truthy name = true ->
  bcrypt_hash env password = Fulfilled digest ->
  accepted env email name = inr (email_text, name_text) ->
  db_error (account env) = None ->
  In email_text (map Utilisateurs.email (users r)) ->
  respond (post_register body) env r
  = (reply 409 [Lit "Cet email est déjà utilisé"], r).
Proof.
  intros email password name He Hp Hn Hh Hacc Hdb Htaken.
  rewrite (post_register_run env r body digest He Hp Hn Hh).
  fold email name. rewrite Hacc, Hdb.
  apply email_taken in Htaken. now rewrite Htaken.
Qed.

(** X12.  A registration with its three fields, a password that bcrypt
    hashes, values the validation accepts and an email no user has, is
    answered 201 with the new key, the email and the name of the request
    and no [password] member; exactly one row is appended, whose password
    is the digest bcrypt gave, and the counter moves by one. *)
Theorem register_succeeds env r body digest email_text name_text :
  let email := prop (VObj body) "email" in
  let password := prop (VObj body) "password" in
  let name := prop (VObj body) "name" in
  truthy email = true -> truthy password = true -> truthy name = true ->
  bcrypt_hash env password = Fulfilled digest ->
  accepted env email name = inr (email_text, name_text) ->
  db_error (account env) = None ->
  ~ In email_text (map Utilisateurs.email (users r)) ->
  exists u j,
    respond (post_register body) env r
    = (Some {| res_status := 201; res_body := Json j |},
       {| users := users r ++ [u]; next_id := next_id r + 1 |})
    /\ id u = next_id r
    /\ Utilisateurs.email u = email_text
    /\ Utilisateurs.name u = name_text
    /\ Utilisateurs.password u = digest
    /\ prop j "id" = VNum (next_id r)
    /\ prop j "email" = to_json email
    /\ prop j "name" = to_json name
    /\ json_has j "password" = false.
Proof.
  intros email password name He Hp Hn Hh Hacc Hdb Hfree.
  rewrite (post_register_new env r body digest email_text name_text
             He Hp Hn Hh Hacc Hdb Hfree).
  cbv zeta. fold email name.
  eexists _, _. split; [reflexivity|]. cbn [id Utilisateurs.email
    Utilisateurs.name Utilisateurs.password].
  assert (Hnd : NoDup (map fst (registered email name
                  {| id := next_id r; Utilisateurs.email := email_text;
                     Utilisateurs.password := digest;
                     Utilisateurs.name := name_text;
                     createdAt := db_now env; updatedAt := db_now env |})))
    by CommandesProps.distinct_keys.
  rewrite !(CommandesProps.prop_to_json _ _ Hnd),
          (CommandesProps.json_has_to_json _ _ Hnd).
  repeat split.
Qed.

(** X13.  A registration whose email a user already has is answered 409
    and leaves the table and its counter as they were. *)
Theorem register_duplicate env r body digest email_text name_text :
  let email := prop (VObj body) "email" in
  let password := prop (VObj body) "password" in
  let name := prop (VObj body) "name" in
  truthy email = true -> truthy password = true -> truthy name = true ->
  bcrypt_hash env password = Fulfilled digest ->
  accepted env email name = inr (email_text, name_text) ->
  db_error (account env) = None ->
  In email_text (map Utilisateurs.email (users r)) ->
  respond (post_register body) env r
  = (reply 409 [Lit "Cet email est déjà utilisé"], r).
Proof. exact (post_register_taken env r body digest email_text name_text). Qed.

(** Registering twice with the same email: the first request being
    answered 201, a second one whose email is kept as the same text is
    answered 409, whatever its password and its name, and leaves the
    table as the first request left it. *)
Theorem register_twice env r body digest email_text name_text
        env2 body2 digest2 name_text2 :
  truthy (prop (VObj body) "email") = true ->
  truthy (prop (VObj body) "password") = true ->
  truthy (prop (VObj body) "name") = true ->
  bcrypt_hash env (prop (VObj body) "password") = Fulfilled digest ->
  accepted env (prop (VObj body) "email") (prop (VObj body) "name")
  = inr (email_text, name_text) ->
  db_error (account env) = None ->
  ~ In email_text (map Utilisateurs.email (users r)) ->
  truthy (prop (VObj body2) "email") = true ->
  truthy (prop (VObj body2) "password") = true ->
  truthy (prop (VObj body2) "name") = true ->
  bcrypt_hash env2 (prop (VObj body2) "password") = Fulfilled digest2 ->
  accepted env2 (prop (VObj body2) "email") (prop (VObj body2) "name")
  = inr (email_text, name_text2) ->
  db_error (account env2) = None ->
  exists rs r',
    respond (post_register body) env r = (Some rs, r')
    /\ res_status rs = 201
    /\ respond (post_register body2) env2 r'
       = (reply 409 [Lit "Cet email est déjà utilisé"], r').
Proof.
  intros He Hp Hn Hh Hacc Hdb Hfree He2 Hp2 Hn2 Hh2 Hacc2 Hdb2.
  eexists _, _. split.
  - exact (post_register_new env r body digest email_text name_text
             He Hp Hn Hh Hacc Hdb Hfree).
  - split; [reflexivity|].
    apply (post_register_taken env2 _ body2 digest2 email_text name_text2);
      try assumption.
    cbn [users]. rewrite map_app. apply in_or_app. right. cbn. now left.
Qed.

Lemma respond_on_users env r (m : Utilisateurs.M unit) :
  respond (on_users m) env r
  = (fst (respond m (account env) (users r)),
     {| users := snd (respond m (account env) (users r));
        next_id := next_id r |}).
Proof.
  unfold respond, on_users.
  destruct (m (account env) (users r)) as [[a|rs|e] us]; reflexivity.
Qed.

Lemma find_new_email e (rows : list User) u :
  ~ In e (map email rows) -> email u = e ->
  find (where_email (VStr e)) (rows ++ [u]) = Some u.
Proof.
  intros Hfree Hu. induction rows as [|x rows IH]; cbn.
  - now rewrite Hu, String.eqb_refl.
  - cbn in Hfree.
    replace (email x =? e)%string with false
      by (symmetry; apply String.eqb_neq; tauto).
    apply IH. tauto.
Qed.

(** X14.  Registration then login: after a registration answered 201
    whose email is a text kept as it is, a login with the same email and
    the same password is answered 200 with the registered user, provided
    bcrypt accepts the password against the digest it gave for it. *)
Theorem register_then_login env r body digest e name_text login_body :
  prop (VObj body) "email" = VStr e ->
  truthy (VStr e) = true ->
  truthy (prop (VObj body) "password") = true ->
  truthy (prop (VObj body) "name") = true ->
  bcrypt_hash env (prop (VObj body) "password") = Fulfilled digest ->
  accepted env (VStr e) (prop (VObj body) "name") = inr (e, name_text) ->
  db_error (account env) = None ->
  ~ In e (map Utilisateurs.email (users r)) ->
  prop (VObj login_body) "email" = VStr e ->
  prop (VObj login_body) "password" = prop (VObj body) "password" ->
  bcrypt_compare (account env) (prop (VObj body) "password") digest
  = Fulfilled true ->
  exists rs r',
    respond (post_register body) env r = (Some rs, r')
    /\ res_status rs = 201
    /\ respond (on_users (post_login login_body)) env r'
       = (Some {| res_status := 200;
                  res_body :=
                    Json (VObj [ ("message", VStr "Connexion réussie");
                                 ("user",
                                  VObj [ ("id", VNum (next_id r));
                                         ("email", VStr e);
                                         ("name", VStr name_text);
                                         ("createdAt", VDate (db_now env));
                                         ("updatedAt", VDate (db_now env)) ]) ]) |},
          r').
Proof.
  intros Hemail He Hp Hn Hh Hacc Hdb Hfree Hle Hlp Hcmp.
  eexists _, _. split.
  - apply (post_register_new env r body digest e name_text);
      rewrite ?Hemail; assumption.
  - split; [reflexivity|].
    rewrite respond_on_users, UtilisateursProps.post_login_run.
    cbv zeta. cbn [users next_id fst snd].
    rewrite Hle, Hlp, He, Hp, Hdb. cbn [andb].
    erewrite (find_new_email e (users r)) by (exact Hfree || reflexivity).
    cbn [Utilisateurs.password]. rewrite Hcmp. reflexivity.
Qed.

Lemma for_each_step {A B} (f : A -> M B) x xs (env : Env) (r : Registry) :
  for_each f (x :: xs) env r
  = match f x env r with
    | (Next y, r') =>
        match for_each f xs env r' with
        | (Next ys, r'') => (Next (y :: ys), r'')
        | (Done rs, r'') => (Done rs, r'')
        | (Threw e, r'') => (Threw e, r'')
        end
    | (Done rs, r') => (Done rs, r')
    | (Threw e, r') => (Threw e, r')
    end.
Proof. reflexivity. Qed.

Lemma member_run v k (env : Env) (r : Registry) :
  member v k env r
  = if nullish v then (Threw TypeError, r) else (Next (prop v k), r).
Proof. unfold member. now destruct (nullish v). Qed.

Lemma read_messages items : forall (env : Env) (r : Registry),
  (Forall (fun e => nullish e = false) items
   /\ for_each (fun e => member e "message") items env r
      = (Next (map (fun e => prop e "message") items), r))
  \/ for_each (fun e => member e "message") items env r = (Threw TypeError, r).
Proof.
  induction items as [|x items IH]; intros env r.
  - left. split; [constructor|reflexivity].
  - rewrite for_each_step, member_run. cbn [map].
    destruct (nullish x) eqn:Ex; [right; reflexivity|].
    destruct (IH env r) as [[Hall ->] | ->]; [left|right; reflexivity].
    split; [now constructor|reflexivity].
Qed.

(** What the [catch] of the registration route does with an error: it
    answers, or fails on the [errors] of the error, and writes nothing. *)
Lemma register_catch error (env : Env) (r : Registry) :
  let out :=
    respond
      (if (error_name error =? "SequelizeUniqueConstraintError")%string then
         send 409 (Text [Lit "Cet email est déjà utilisé"])
       else if (error_name error =? "SequelizeValidationError")%string then
         details <- messages (error_errors error) ;;
         send_json 400 (VObj [ ("error", VStr "Validation Error");
                               ("details", details) ])
       else send 500 (Text [Lit "Erreur serveur lors de l'inscription."]))
      env r in
  snd out = r
  /\ fst out <> reply 400 [Lit "Email, mot de passe et nom sont requis"]
  /\ forall rs, fst out = Some rs -> res_status rs <> 201.
Proof.
  intros out.
  assert (Hout : exists o,
             out = (o, r)
             /\ o <> reply 400 [Lit "Email, mot de passe et nom sont requis"]
             /\ forall rs, o = Some rs -> res_status rs <> 201).
  { unfold out.
    destruct (error_name error =? "SequelizeUniqueConstraintError")%string.
    { eexists. split; [reflexivity|]. split; [discriminate|].
      intros rs H; inversion H; subst; discriminate. }
    destruct (error_name error =? "SequelizeValidationError")%string.
    2:{ eexists. split; [reflexivity|]. split; [discriminate|].
        intros rs H; inversion H; subst; discriminate. }
    unfold messages.
    destruct (error_errors error) as [| | | | | |items|];
      try (eexists; split; [reflexivity|]; split; discriminate).
    unfold respond, bind.
    destruct (read_messages items env r) as [[_ ->] | ->];
      eexists; (split; [reflexivity|]); (split; [discriminate|]);
      intros rs H; inversion H; subst; discriminate. }
  destruct Hout as (o & -> & Hne & H201). cbn [fst snd]. auto.
Qed.

(** The outcomes of a registration: refused for a missing field;
    answered otherwise without any write; or answered 201 with one row
    appended, whose email no row had and whose key is the counter. *)
Lemma post_register_cases env r body :
  let email := prop (VObj body) "email" in
  let password := prop (VObj body) "password" in
  let name := prop (VObj body) "name" in
  let out := respond (post_register body) env r in
  (truthy email && truthy password && truthy name = false
   /\ out = (reply 400 [Lit "Email, mot de passe et nom sont requis"], r))
  \/ (truthy email && truthy password && truthy name = true
      /\ snd out = r
      /\ fst out <> reply 400 [Lit "Email, mot de passe et nom sont requis"]
      /\ forall rs, fst out = Some rs -> res_status rs <> 201)
  \/ (truthy email && truthy password && truthy name = true
      /\ exists u j,
           out = (Some {| res_status := 201; res_body := Json j |},
                  {| users := users r ++ [u]; next_id := next_id r + 1 |})
           /\ id u = next_id r
           /\ ~ In (Utilisateurs.email u) (map Utilisateurs.email (users r))).
Proof.
  intros email password name out. unfold out, post_register.
  fold email password name.
  destruct (truthy email); [|left; split; reflexivity].
  destruct (truthy password); [|left; split; reflexivity].
  destruct (truthy name); [|left; split; reflexivity].
  right. cbn [negb orb andb].
  set (attempt := (hashedPassword <- hash password ;;
                   newUser <- User_create email hashedPassword name ;;
                   send_json 201 (VObj (registered email name newUser)))).
  assert (Hcaught : forall error,
            attempt env r = (Threw error, r) ->
            forall h, respond (try_catch attempt h) env r
                      = respond (h error) env r).
  { intros error E h. unfold respond, try_catch. now rewrite E. }
  destruct (bcrypt_hash env password) as [digest|error] eqn:Eh.
  2:{ left. split; [reflexivity|]. rewrite (Hcaught error).
      - apply (register_catch error env r).
      - unfold attempt, bind, hash. now rewrite Eh. }
  destruct (accepted env email name) as [error|[email_text name_text]] eqn:Ea.
  { left. split; [reflexivity|]. rewrite (Hcaught error).
    - apply (register_catch error env r).
    - unfold attempt, bind, hash, User_create. now rewrite Eh, Ea. }
  destruct (db_error (account env)) as [error|] eqn:Ed.
  { left. split; [reflexivity|]. rewrite (Hcaught error).
    - apply (register_catch error env r).
    - unfold attempt, bind, hash, User_create. now rewrite Eh, Ea, Ed. }
  destruct (existsb (fun u => (Utilisateurs.email u =? email_text)%string)
                    (users r)) eqn:Ex.
  { left. split; [reflexivity|]. rewrite (Hcaught UniqueConstraintError).
    - apply (register_catch UniqueConstraintError env r).
    - unfold attempt, bind, hash, User_create. now rewrite Eh, Ea, Ed, Ex. }
  right. split; [reflexivity|]. eexists _, _. split.
  - unfold respond, try_catch, attempt, bind, hash, User_create.
    rewrite Eh, Ea, Ed, Ex. reflexivity.
  - cbn [id Utilisateurs.email]. split; [reflexivity|].
    intros Hin. apply email_taken in Hin. congruence.
Qed.

(** X15.  Whatever the request and whatever it meets, registration keeps
    the table sound: emails distinct, keys distinct and below the
    counter. *)
Theorem register_keeps_sound env r body :
  sound r -> sound (snd (respond (post_register body) env r)).
Proof.
  intros (Hemails & Hids & Hlt).
  destruct (post_register_cases env r body)
    as [(_ & ->) | [(_ & -> & _) | (_ & u & j & -> & Hid & Hfree)]];
    cbn [snd]; try (repeat split; assumption).
  repeat split; cbn [users next_id].
  - rewrite map_app. apply NoDup_app; [exact Hemails | |].
    + repeat constructor. intros [].
    + intros e Hin [He|[]]. subst e. contradiction.
  - rewrite map_app. apply NoDup_app; [exact Hids | |].
    + repeat constructor. intros [].
    + intros k Hin [Hk|[]]. subst k. rewrite Hid in Hin.
      apply in_map_iff in Hin as (x & Hx & Hin).
      rewrite Forall_forall in Hlt. specialize (Hlt x Hin). lia.
  - apply Forall_app. split.
    + eapply Forall_impl; [|exact Hlt]. cbn. intros; lia.
    + repeat constructor. lia.
Qed.

(** X16.  Registration answers 400 with the message of the missing
    fields exactly when the email, the password or the name is falsy, and
    then writes nothing. *)
Theorem register_missing_field env r body :
  (fst (respond (post_register body) env r)
   = reply 400 [Lit "Email, mot de passe et nom sont requis"]
   <-> truthy (prop (VObj body) "email")
       && truthy (prop (VObj body) "password")
       && truthy (prop (VObj body) "name") = false)
  /\ (truthy (prop (VObj body) "email")
      && truthy (prop (VObj body) "password")
      && truthy (prop (VObj body) "name") = false ->
      snd (respond (post_register body) env r) = r).
Proof.
  destruct (post_register_cases env r body)
    as [(Hf & ->) | [(Ht & _ & Hne & _) | (Ht & u & j & -> & _)]];
    cbn [fst snd].
  - split; [split; intros _; [exact Hf|reflexivity]|reflexivity].
  - rewrite Ht. split; [split; [contradiction|discriminate]|discriminate].
  - rewrite Ht. split; [split; discriminate|discriminate].
Qed.

(** X17.  When the validation refuses the values with a
    SequelizeValidationError whose [errors] are objects, registration
    answers 400 with the fixed label and the list of their messages, and
    writes nothing. *)
Theorem register_validation_fails env r body digest error items :
  let email := prop (VObj body) "email" in
  let password := prop (VObj body) "password" in
  let name := prop (VObj body) "name" in
  truthy email = true -> truthy password = true -> truthy name = true ->
  bcrypt_hash env password = Fulfilled digest ->
  accepted env email name = inl error ->
  error_name error = "SequelizeValidationError" ->
  error_errors error = VArr items ->
  Forall (fun e => nullish e = false) items ->
  respond (post_register body) env r
  = (Some {| res_status := 400;
             res_body :=
               Json (to_json
                       (VObj [ ("error", VStr "Validation Error");
                               ("details",
                                VArr (map (fun e => prop e "message") items)) ])) |},
     r).
Proof.
  intros email password name He Hp Hn Hh Hacc Hname Herrors Hall.
  rewrite (post_register_run env r body digest He Hp Hn Hh).
  fold email name. rewrite Hacc, Hname.
  change ("SequelizeValidationError" =? "SequelizeUniqueConstraintError")%string
    with false.
  change ("SequelizeValidationError" =? "SequelizeValidationError")%string
    with true.
  cbv iota.
  unfold messages. rewrite Herrors. unfold respond, bind.
  destruct (read_messages items env r) as [[_ ->] | Hthrow]; [reflexivity|].
  exfalso. clear - Hall Hthrow. revert Hthrow.
  induction Hall as [|x items Hx _ IH].
  - discriminate.
  - rewrite for_each_step, member_run, Hx.
    destruct (for_each (fun e => member e "message") items env r)
      as [[l|rs|e] r0] eqn:E; try discriminate.
    intros H. apply IH. now inversion H.
Qed.

End InscriptionProps.

(* ===================================================================== *)
(** ** Properties of the catalog routes *)
(* ===================================================================== *)

Module CatalogueProps.
Import Livres.
Import Catalogue.
Import LivresProps.

Lemma respond_on_books env t (m : Livres.M unit) :
  respond (on_books m) env t
  = (fst (respond m env (books t)),
     {| books := snd (respond m env (books t)); next_id := next_id t |}).
Proof.
  unfold respond, on_books.
  destruct (m env (books t)) as [[a|rs|e] bs]; reflexivity.
Qed.

Lemma same_shelf t : {| books := books t; next_id := next_id t |} = t.
Proof. now destruct t. Qed.

(** The lookup route, path by path. *)
Lemma get_livre_run env (rows : list Book) rid :
  respond (Livres.get_livre rid) env rows =
  (match find_error env with
   | Some _ => reply 500 [Lit "Erreur serveur lors de la récupération du livre"]
   | None =>
       match match parseInt rid None with
             | Some k => find (fun b => id b =? k) rows
             | None => None
             end with
       | Some book =>
           Some {| res_status := 200;
                   res_body := Json (to_json (VObj (plain book))) |}
       | None => reply 404 [Lit "Livre non trouvé"]
       end
   end, rows).
Proof.
  unfold Livres.get_livre, respond, try_catch, bind, Book_findByPk,
    send_json, send.
  destruct (find_error env); [reflexivity|].
  destruct (match parseInt rid None with
            | Some k => find (fun b => id b =? k) rows
            | None => None
            end); reflexivity.
Qed.

(** The creation route, path by path. *)
Lemma post_livres_run env t body :
  let title := prop (VObj body) "title" in
  let author := prop (VObj body) "author" in
  let year := prop (VObj body) "year" in
  respond (post_livres body) env t =
  if truthy title && truthy author then
    match save_error env with
    | Some error =>
        (if (error_name error =? "SequelizeValidationError")%string then
           Some {| res_status := 400;
                   res_body :=
                     Json (to_json
                             (VObj [ ("error", VStr (error_message error));
                                     ("details", error_errors error) ])) |}
         else reply 500 [Lit "Erreur serveur lors de la création du livre"],
         t)
    | None =>
        let row := {| id := next_id t;
                      title := title;
                      author := author;
                      year := if is_undefined year then VNull else year;
                      createdAt := db_now env;
                      updatedAt := db_now env |} in
        (Some {| res_status := 201;
                 res_body := Json (to_json (VObj (plain (with_year row year)))) |},
         {| books := books t ++ [row]; next_id := next_id t + 1 |})
    end
  else (reply 400 [Lit "Titre et auteur sont requis"], t).
Proof.
  intros title author year. unfold post_livres. fold title author year.
  unfold respond, try_catch.
  destruct (truthy title); [|reflexivity].
  destruct (truthy author); [|reflexivity]. cbn [negb orb andb].
  unfold bind, Book_create.
  destruct (save_error env) as [error|]; [|reflexivity].
  destruct (error_name error =? "SequelizeValidationError")%string;
    reflexivity.
Qed.

(** The deletion route, path by path. *)
Lemma delete_livre_run env t rid :
  respond (delete_livre rid) env t =
  match find_error env with
  | Some _ =>
      (reply 500 [Lit "Erreur serveur lors de la suppression du livre"], t)
  | None =>
      match match parseInt rid None with
            | Some k => find (fun b => id b =? k) (books t)
            | None => None
            end with
      | None => (reply 404 [Lit "Livre non trouvé"], t)
      | Some book =>
          match save_error env with
          | Some _ =>
              (reply 500 [Lit "Erreur serveur lors de la suppression du livre"],
               t)
          | None =>
              (reply 204 [],
               {| books := filter (fun b => negb (id b =? id book)) (books t);
                  next_id := next_id t |})
          end
      end
  end.
Proof.
  unfold delete_livre, respond, try_catch, bind, on_books, Book_findByPk,
    Book_destroy.
  destruct (find_error env); [cbn; now rewrite same_shelf|].
  destruct (match parseInt rid None with
            | Some k => find (fun b => id b =? k) (books t)
            | None => None
            end) as [book|]; [|cbn; now rewrite same_shelf].
  destruct (save_error env); cbn; now rewrite ?same_shelf.
Qed.


(** X18.  A creation with a title and an author, whatever the year, on a
    datastore that raises nothing, is answered 201 with the new key and
    the three values of the request; one row is appended, which keeps
    NULL as its year when the request has none, and the counter moves by
    one. *)
Theorem post_livres_creates env t body :
  let title := prop (VObj body) "title" in
  let author := prop (VObj body) "author" in
  let year := prop (VObj body) "year" in
  truthy title = true -> truthy author = true ->
  save_error env = None ->
  exists row j,
    respond (post_livres body) env t
    = (Some {| res_status := 201; res_body := Json j |},
       {| books := books t ++ [row]; next_id := next_id t + 1 |})
    /\ id row = next_id t
    /\ Livres.title row = title
    /\ Livres.author row = author
    /\ Livres.year row = (if is_undefined year then VNull else year)
    /\ prop j "id" = VNum (next_id t)
    /\ prop j "title" = to_json title
    /\ prop j "author" = to_json author
    /\ prop j "year" = to_json year.
Proof.
  intros title author year Ht Ha Hs.
  rewrite post_livres_run. fold title author year.
  rewrite Ht, Ha, Hs. cbv zeta. cbn [andb].
  eexists _, _. split; [reflexivity|].
  cbn [id Livres.title Livres.author Livres.year].
  match goal with
  | |- context [to_json (VObj ?o)] =>
      assert (Hnd : NoDup (map fst o)) by CommandesProps.distinct_keys;
      rewrite !(CommandesProps.prop_to_json _ o Hnd)
  end.
  repeat split.
Qed.

(** X19.  The creation route answers 400 with the message of the
    required fields exactly when the title or the author is falsy, and
    then writes nothing. *)
Theorem post_livres_missing_field env t body :
  (fst (respond (post_livres body) env t)
   = reply 400 [Lit "Titre et auteur sont requis"]
   <-> truthy (prop (VObj body) "title")
       && truthy (prop (VObj body) "author") = false)
  /\ (truthy (prop (VObj body) "title")
      && truthy (prop (VObj body) "author") = false ->
      snd (respond (post_livres body) env t) = t).
Proof.
  rewrite post_livres_run. cbv zeta.
  destruct (truthy (prop (VObj body) "title")
            && truthy (prop (VObj body) "author")).
  2:{ cbn. tauto. }
  destruct (save_error env) as [error|];
    [destruct (error_name error =? "SequelizeValidationError")%string|];
    cbn; (split; [split; discriminate | discriminate]).
Qed.


Lemma find_filtered_out (rows : list Book) k :
  find (fun b => id b =? k) (filter (fun b => negb (id b =? k)) rows) = None.
Proof.
  induction rows as [|x rows IH]; cbn; [reflexivity|].
  destruct (id x =? k) eqn:E; cbn; [exact IH|]. now rewrite E.
Qed.

Lemma find_filtered_other (rows : list Book) k k' :
  k' <> k ->
  find (fun b => id b =? k') (filter (fun b => negb (id b =? k)) rows)
  = find (fun b => id b =? k') rows.
Proof.
  intros Hk. induction rows as [|x rows IH]; cbn; [reflexivity|].
  destruct (id x =? k) eqn:E; cbn.
  - apply Z.eqb_eq in E.
    replace (id x =? k') with false by (symmetry; apply Z.eqb_neq; lia).
    exact IH.
  - destruct (id x =? k'); [reflexivity|exact IH].
Qed.

(** X21.  The deletion of a book that exists, on a datastore that raises
    nothing, is answered 204 without a body; afterwards no row has its
    key, so its lookup answers 404, every other key finds the row it
    found before, and the counter has not moved. *)
Theorem delete_livre_removes env t rid k b env2 :
  find_error env = None -> save_error env = None ->
  parseInt rid None = Some k ->
  find (fun x => id x =? k) (books t) = Some b ->
  find_error env2 = None ->
  let t' := snd (respond (delete_livre rid) env t) in
  fst (respond (delete_livre rid) env t) = reply 204 []
  /\ find (fun x => id x =? k) (books t') = None
  /\ (forall k', k' <> k ->
        find (fun x => id x =? k') (books t')
        = find (fun x => id x =? k') (books t))
  /\ next_id t' = next_id t
  /\ fst (respond (get_livre rid) env2 t') = reply 404 [Lit "Livre non trouvé"].
Proof.
  intros Hf Hs Hk Hb Hf2 t'. unfold t'.
  rewrite delete_livre_run, Hf, Hk, Hb, Hs. cbn [fst snd books next_id].
  rewrite (find_by_id_id (books t) k b Hb).
  repeat split.
  - apply find_filtered_out.
  - intros k' Hk'. now apply find_filtered_other.
  - unfold get_livre. rewrite respond_on_books, get_livre_run, Hf2, Hk.
    cbn [fst books]. now rewrite find_filtered_out.
Qed.



Lemma write_row_keys saved : forall rows,
  map id (write_row saved rows) = map id rows.
Proof.
  induction rows as [|x rows IH]; cbn; [reflexivity|].
  destruct (id x =? id saved) eqn:E; cbn; [|now rewrite IH].
  apply Z.eqb_eq in E. now rewrite E.
Qed.







(** The keys an update leaves are the keys it found. *)
Lemma put_livre_keys env rows rid body :
  map id (snd (respond (Livres.put_livre rid body) env rows)) = map id rows.
Proof.
  unfold Livres.put_livre, respond, try_catch, bind, Book_findByPk, Book_save.
  destruct (find_error env) as [e|].
  { destruct (error_name e =? "SequelizeValidationError")%string; reflexivity. }
  destruct (match parseInt rid None with
            | Some k => find (fun b => id b =? k) rows
            | None => None
            end) as [b|]; [|reflexivity].
  destruct (negb (truthy (prop (VObj body) "title"))
            && negb (truthy (prop (VObj body) "author"))
            && is_undefined (prop (VObj body) "year")); [reflexivity|].
  destruct (save_error env) as [e|].
  { destruct (error_name e =? "SequelizeValidationError")%string; reflexivity. }
  destruct (find _ rows) as [row|]; [|reflexivity].
  destruct (changed row _); [|reflexivity].
  cbn [snd]. apply write_row_keys.
Qed.

Lemma filter_keeps_keys (rows : list Book) p :
  NoDup (map id rows) -> NoDup (map id (filter p rows)).
Proof.
  induction rows as [|x rows IH]; cbn; intros Hnd; [constructor|].
  inversion Hnd as [|? ? Hx Hnd']; subst.
  destruct (p x); cbn; [|now apply IH].
  constructor; [|now apply IH].
  intros Hin. apply Hx. apply in_map_iff in Hin as (y & Hy & Hin).
  apply filter_In in Hin as [Hin _]. apply in_map_iff. eauto.
Qed.

(** X26.  Creation, update and deletion keep the table sound, whatever
    the request and whatever it meets: keys distinct and below the
    counter. *)
Theorem catalogue_keeps_sound env t rid body :
  sound t ->
  sound (snd (respond (post_livres body) env t))
  /\ sound (snd (respond (put_livre rid body) env t))
  /\ sound (snd (respond (delete_livre rid) env t)).
Proof.
  intros [Hnd Hlt]. repeat split.
  - rewrite post_livres_run. cbv zeta.
    destruct (truthy _ && truthy _); [|exact Hnd].
    destruct (save_error env); [exact Hnd|]. cbn [snd books].
    rewrite map_app. apply NoDup_app; [exact Hnd | |].
    + repeat constructor. intros [].
    + intros k Hin [Hk|[]]. cbn [id] in Hk. subst k.
      apply in_map_iff in Hin as (x & Hx & Hin).
      rewrite Forall_forall in Hlt. specialize (Hlt x Hin). lia.
  - rewrite post_livres_run. cbv zeta.
    destruct (truthy _ && truthy _); [|exact Hlt].
    destruct (save_error env); [exact Hlt|]. cbn [snd books next_id].
    apply Forall_app. split.
    + eapply Forall_impl; [|exact Hlt]. cbn. intros; lia.
    + repeat constructor. cbn. lia.
  - unfold put_livre. rewrite respond_on_books. cbn [snd books].
    now rewrite put_livre_keys.
  - unfold put_livre. rewrite respond_on_books. cbn [snd books next_id].
    apply Forall_forall. intros x Hin.
    assert (Hk : In (id x) (map id (books t))).
    { rewrite <- (put_livre_keys env (books t) rid body).
      apply in_map_iff. eauto. }
    apply in_map_iff in Hk as (y & Hy & Hiny).
    rewrite Forall_forall in Hlt. specialize (Hlt y Hiny). lia.
  - rewrite delete_livre_run.
    destruct (find_error env); [exact Hnd|].
    destruct (match parseInt rid None with Some _ => _ | None => _ end);
      [|exact Hnd].
    destruct (save_error env); [exact Hnd|]. cbn [snd books].
    now apply filter_keeps_keys.
  - rewrite delete_livre_run.
    destruct (find_error env); [exact Hlt|].
    destruct (match parseInt rid None with Some _ => _ | None => _ end);
      [|exact Hlt].
    destruct (save_error env); [exact Hlt|]. cbn [snd books next_id].
    apply Forall_forall. intros x Hin. apply filter_In in Hin as [Hin _].
    rewrite Forall_forall in Hlt. now apply Hlt.
Qed.

(** X27.  When the save of an update raises, nothing is written; the
    answer is 400 with the message and the [errors] of the error when it
    is a SequelizeValidationError, and 500 otherwise. *)
Theorem put_livre_save_fails env t rid body k b error :
  find_error env = None ->
  parseInt rid None = Some k ->
  find (fun x => id x =? k) (books t) = Some b ->
  negb (truthy (prop (VObj body) "title"))
  && negb (truthy (prop (VObj body) "author"))
  && is_undefined (prop (VObj body) "year") = false ->
  save_error env = Some error ->
  respond (put_livre rid body) env t
  = (if (error_name error =? "SequelizeValidationError")%string then
       Some {| res_status := 400;
               res_body :=
                 Json (to_json (VObj [ ("error", VStr (error_message error));
                                       ("details", error_errors error) ])) |}
     else reply 500 [Lit "Erreur serveur lors de la mise à jour du livre"],
     t).
Proof.
  intros Hf Hk Hb Hsome Hs. unfold put_livre. rewrite respond_on_books.
  unfold Livres.put_livre, respond, try_catch, bind, Book_findByPk, Book_save.
  rewrite Hf, Hk, Hb, Hsome, Hs.
  destruct (error_name error =? "SequelizeValidationError")%string;
    cbn; now rewrite same_shelf.
Qed.

End CatalogueProps.

(* ===================================================================== *)
(** ** Properties of the three services together *)
(* ===================================================================== *)

Module LibrairieProps.
Import Commandes.
Import Librairie.

Lemma to_json_defined v : v <> VUndefined -> to_json v <> VUndefined.
Proof. destruct v; cbn; congruence. Qed.

Lemma to_json_again : forall v, to_json (to_json v) = to_json v.
Proof.
  fix IH 1. intros v. destruct v; try reflexivity.
  - cbn [to_json]. f_equal.
    induction items as [|x xs IHxs]; [reflexivity|].
    cbn [map]. f_equal; [|exact IHxs].
    pose proof (IH x) as Hx. destruct x; try reflexivity; exact Hx.
  - rewrite !CommandesProps.to_json_obj. f_equal.
    induction fields as [|[k x] xs IHxs]; [reflexivity|].
    pose proof (IH x) as Hx.
    destruct x; cbn [json_members]; try exact IHxs;
      rewrite IHxs; try reflexivity;
      rewrite Hx;
      match goal with
      | |- context [match to_json ?y with _ => _ end] =>
          destruct (to_json y) eqn:E; try reflexivity; discriminate E
      end.
Qed.

(** What a call for a user settles to when the account service can read
    its table: fulfilled with the user without password when a user has
    the key, rejected with status 404 otherwise. *)
Lemma live_user p log n :
  Urls.plain_integer n = true ->
  Utilisateurs.db_error (accounts_env p) = None ->
  live p log (GetUser (VNum n))
  = match find (fun u => Utilisateurs.id u =? n) (accounts p) with
    | Some user =>
        Fulfilled
          {| ax_status := 200;
             data := to_json (VObj (Utilisateurs.userWithoutPassword user)) |}
    | None =>
        Rejected
          {| error_name := "AxiosError";
             error_message :=
               ("Request failed with status code " ++ Urls.decimal 404)%string;
             error_errors := VUndefined;
             error_response :=
               Some {| ax_status := 404;
                       data := text_data (wire p)
                                 [Lit "Utilisateur non trouvé"] |} |}
    end.
Proof.
  intros Hn Hdb. unfold live. rewrite Hn.
  rewrite InscriptionProps.get_user_run, Hdb. cbn [fst].
  destruct (UrlsProps.parseInt_decimal_text n) as [-> _].
  destruct (find _ (accounts p)); reflexivity.
Qed.

Lemma live_book p log n :
  Urls.plain_integer n = true ->
  Livres.find_error (catalog_env p) = None ->
  live p log (GetBook (VNum n))
  = match find (fun b => Livres.id b =? n) (catalog p) with
    | Some book =>
        Fulfilled {| ax_status := 200;
                     data := to_json (VObj (Livres.plain book)) |}
    | None =>
        Rejected
          {| error_name := "AxiosError";
             error_message :=
               ("Request failed with status code " ++ Urls.decimal 404)%string;
             error_errors := VUndefined;
             error_response :=
               Some {| ax_status := 404;
                       data := text_data (wire p) [Lit "Livre non trouvé"] |} |}
    end.
Proof.
  intros Hn Hdb. unfold live. rewrite Hn.
  rewrite CatalogueProps.get_livre_run, Hdb. cbn [fst].
  destruct (UrlsProps.parseInt_decimal_text n) as [-> _].
  destruct (find _ (catalog p)); reflexivity.
Qed.

(** X28.  An order against the two services as they are: with numeric
    identifiers other than zero and peers that can read their tables, the
    create route answers 404 naming the user when no user has the key,
    404 naming the book when the user exists and no book has the key, and
    201 with the new order, which it appends, when both exist. *)
Theorem order_against_live_peers p now db_now w u b :
  Urls.plain_integer u = true -> Urls.plain_integer b = true ->
  u <> 0 -> b <> 0 ->
  Utilisateurs.db_error (accounts_env p) = None ->
  Livres.find_error (catalog_env p) = None ->
  let env := facing p now db_now None in
  let body := [("userId", VNum u); ("bookId", VNum b)] in
  respond (post_commandes body) env w
  = match find (fun x => Utilisateurs.id x =? u) (accounts p) with
    | None =>
        (reply 404 [Lit "Utilisateur avec ID "; Interp (VNum u);
                    Lit " non trouvé."],
         logged w [GetUser (VNum u)])
    | Some _ =>
        match find (fun x => Livres.id x =? b) (catalog p) with
        | None =>
            (reply 404 [Lit "Livre avec ID "; Interp (VNum b);
                        Lit " non trouvé."],
             logged w [GetUser (VNum u); GetBook (VNum b)])
        | Some _ =>
            (Some {| res_status := 201;
                     res_body :=
                       Json (to_json
                               (VObj (plain (created env w (VNum u) (VNum b))))) |},
             {| orders := orders w ++ [created env w (VNum u) (VNum b)];
                next_id := next_id w + 1;
                calls := calls w ++ [GetUser (VNum u); GetBook (VNum b)] |})
        end
    end.
Proof.
  intros Hu Hb Hu0 Hb0 Hdbu Hdbb env body.
  rewrite CommandesProps.post_commandes_run. cbv zeta.
  change (prop (VObj body) "userId") with (VNum u).
  change (prop (VObj body) "bookId") with (VNum b).
  cbn [truthy].
  replace (u =? 0) with false by (symmetry; now apply Z.eqb_neq).
  replace (b =? 0) with false by (symmetry; now apply Z.eqb_neq).
  cbn [negb andb]. unfold env at 1 2. cbn [peers facing].
  rewrite (live_user p _ u Hu Hdbu), (live_book p _ b Hb Hdbb).
  destruct (find _ (accounts p)) as [user|]; [|reflexivity].
  destruct (find _ (catalog p)) as [book|]; reflexivity.
Qed.

(** X29.  An order while a peer cannot read its table: when the account
    service fails, the create route answers 500 with the message of the
    user verification and the catalog is not called; when the user exists
    and the catalog fails, it answers 500 with the message of the book
    verification.  Nothing is written in either case. *)
Theorem order_when_a_peer_fails p now db_now db_error w u b :
  Urls.plain_integer u = true -> Urls.plain_integer b = true ->
  u <> 0 -> b <> 0 ->
  let env := facing p now db_now db_error in
  let body := [("userId", VNum u); ("bookId", VNum b)] in
  (forall e, Utilisateurs.db_error (accounts_env p) = Some e ->
     respond (post_commandes body) env w
     = (reply 500 [Lit "Erreur lors de la vérification de l'utilisateur."],
        logged w [GetUser (VNum u)]))
  /\ (forall e user,
        Utilisateurs.db_error (accounts_env p) = None ->
        find (fun x => Utilisateurs.id x =? u) (accounts p) = Some user ->
        Livres.find_error (catalog_env p) = Some e ->
        respond (post_commandes body) env w
        = (reply 500 [Lit "Erreur lors de la vérification du livre."],
           logged w [GetUser (VNum u); GetBook (VNum b)])).
Proof.
  intros Hu Hb Hu0 Hb0 env body. split.
  - intros e He.
    rewrite CommandesProps.post_commandes_run. cbv zeta.
    change (prop (VObj body) "userId") with (VNum u).
    change (prop (VObj body) "bookId") with (VNum b).
    cbn [truthy].
    replace (u =? 0) with false by (symmetry; now apply Z.eqb_neq).
    replace (b =? 0) with false by (symmetry; now apply Z.eqb_neq).
    cbn [negb andb]. unfold env. cbn [peers facing]. unfold live at 1.
    rewrite Hu, InscriptionProps.get_user_run, He. reflexivity.
  - intros e user Hdbu Hfind He.
    rewrite CommandesProps.post_commandes_run. cbv zeta.
    change (prop (VObj body) "userId") with (VNum u).
    change (prop (VObj body) "bookId") with (VNum b).
    cbn [truthy].
    replace (u =? 0) with false by (symmetry; now apply Z.eqb_neq).
    replace (b =? 0) with false by (symmetry; now apply Z.eqb_neq).
    cbn [negb andb]. unfold env. cbn [peers facing].
    rewrite (live_user p _ u Hu Hdbu), Hfind. unfold live.
    rewrite Hb, CatalogueProps.get_livre_run, He. reflexivity.
Qed.

(** X30.  What the read routes show for an order against the two
    services as they are: [userName] is the name of the user of that key
    and [bookTitle] the title of the book of that key, as long as the
    title is truthy; it is "Utilisateur inconnu" when no user has the
    key and "Livre inconnu" when no book has it, as after a deletion. *)
Theorem enrichment_against_live_peers p now db_now db_error log o u b :
  userId o = VNum u -> bookId o = VNum b ->
  Urls.plain_integer u = true -> Urls.plain_integer b = true ->
  Utilisateurs.db_error (accounts_env p) = None ->
  Livres.find_error (catalog_env p) = None ->
  let j := to_json (enriched (facing p now db_now db_error) log o) in
  (forall user,
     find (fun x => Utilisateurs.id x =? u) (accounts p) = Some user ->
     prop j "userName" = VStr (Utilisateurs.name user))
  /\ (find (fun x => Utilisateurs.id x =? u) (accounts p) = None ->
      prop j "userName" = VStr unknown_user)
  /\ (forall book,
        find (fun x => Livres.id x =? b) (catalog p) = Some book ->
        prop j "bookTitle" = to_json (Livres.title book))
  /\ (find (fun x => Livres.id x =? b) (catalog p) = None ->
      prop j "bookTitle" = VStr unknown_book).
Proof.
  intros Hou Hob Hu Hb Hdbu Hdbb j. unfold j.
  destruct (CommandesProps.enriched_json (facing p now db_now db_error) log o)
    as (Hname & Htitle & _).
  rewrite Hname, Htitle. unfold user_lookup, book_lookup.
  rewrite Hou, Hob. cbn [peers facing].
  rewrite (live_user p _ u Hu Hdbu), (live_book p _ b Hb Hdbb).
  repeat split.
  - intros user ->. reflexivity.
  - intros ->. reflexivity.
  - intros book ->. cbn [book_title_of data truthy].
    assert (Hnd : NoDup (map fst (Livres.plain book)))
      by CommandesProps.distinct_keys.
    rewrite (CommandesProps.prop_to_json "title" _ Hnd).
    change (prop (VObj (Livres.plain book)) "title") with (Livres.title book).
    apply to_json_again.
  - intros ->. reflexivity.
Qed.

End LibrairieProps.

(* ===================================================================== *)
(** ** The further properties at work on the sample data *)
(* ===================================================================== *)

Module Illustrations.

Lemma shop_sound : Librairie.sound Samples.shop.
Proof.
  split; cbn.
  - repeat constructor; cbn; intuition discriminate.
  - repeat constructor; reflexivity.
Qed.

Lemma shelf_sound : Catalogue.sound Scenes.shelf.
Proof.
  split; cbn.
  - repeat constructor; cbn; intuition discriminate.
  - repeat constructor; reflexivity.
Qed.

Lemma nobody_sound : Inscription.sound Scenes.nobody.
Proof. repeat split; cbn; constructor. Qed.

Lemma post_commandes_keeps_keys_witness :
  Librairie.sound
    (snd (respond (Commandes.post_commandes (Samples.new_order 1 2))
                  Samples.env0 Samples.shop)).
Proof.
  exact (proj1 (CommandesMore.post_commandes_keeps_keys
                  Samples.env0 (Samples.new_order 1 2) Samples.shop _ _
                  shop_sound eq_refl)).
Defined.


Lemma get_commande_ignores_suffix_witness :
  respond (Commandes.get_commande "1abc") Samples.env0 Samples.shop
  = respond (Commandes.get_commande "1") Samples.env0 Samples.shop.
Proof.
  exact (CommandesMore.get_commande_ignores_suffix
           Samples.env0 Samples.shop 1 "abc" eq_refl).
Defined.


Lemma post_commandes_insert_fails_witness :
  respond (Commandes.post_commandes (Samples.new_order 1 2))
          Scenes.order_db_down Samples.shop
  = (reply 500
       [Lit "Erreur base de données lors de la création de la commande."],
     Commandes.logged Samples.shop
       [Commandes.GetUser (VNum 1); Commandes.GetBook (VNum 2)]).
Proof.
  exact (CommandesMore.post_commandes_insert_fails
           Scenes.order_db_down (Samples.new_order 1 2) Samples.shop
           {| ax_status := 200;
              data := VObj [("id", VNum 1); ("name", VStr "Ann")] |}
           {| ax_status := 200;
              data := VObj [("id", VNum 2); ("title", VStr "Germinal")] |}
           Scenes.connection_lost
           eq_refl eq_refl eq_refl eq_refl eq_refl eq_refl).
Defined.

Lemma get_commande_lookup_fails_witness :
  fst (respond (Commandes.get_commande "1") Scenes.order_db_down Samples.shop)
  = Some {| res_status := 500;
            res_body :=
              Sent (VStr "Erreur serveur lors de la récupération de la commande.") |}.
Proof.
  destruct (CommandesMore.get_commande_lookup_fails
              Scenes.order_db_down Samples.shop "1" 1 Scenes.connection_lost
              eq_refl eq_refl) as (_ & H & _).
  exact (H eq_refl).
Defined.

Lemma login_succeeds_witness :
  fst (respond (Utilisateurs.post_login
                  (Samples.credentials "zoe@example.com" "sesame"))
               Scenes.toy_accounts [Scenes.zoe])
  = Some {| res_status := 200;
            res_body :=
              Json (VObj [ ("message", VStr "Connexion réussie");
                           ("user",
                            VObj [ ("id", VNum 1);
                                   ("email", VStr "zoe@example.com");
                                   ("name", VStr "Zoe");
                                   ("createdAt", VDate 50);
                                   ("updatedAt", VDate 50) ]) ]) |}.
Proof.
  exact (f_equal fst
           (UtilisateursMore.login_succeeds
              Scenes.toy_accounts [Scenes.zoe]
              (Samples.credentials "zoe@example.com" "sesame") Scenes.zoe
              eq_refl eq_refl eq_refl eq_refl eq_refl)).
Defined.



Lemma register_succeeds_witness :
  exists u j,
    respond (Inscription.post_register
               (Scenes.sign_up "zoe@example.com" "sesame" "Zoe"))
            Scenes.registration Scenes.nobody
    = (Some {| res_status := 201; res_body := Json j |},
       {| Inscription.users := [u]; Inscription.next_id := 2 |})
    /\ Utilisateurs.password u = "$toy$sesame"
    /\ prop j "email" = VStr "zoe@example.com"
    /\ json_has j "password" = false.
Proof.
  destruct (InscriptionProps.register_succeeds
              Scenes.registration Scenes.nobody
              (Scenes.sign_up "zoe@example.com" "sesame" "Zoe")
              "$toy$sesame" "zoe@example.com" "Zoe"
              eq_refl eq_refl eq_refl eq_refl eq_refl eq_refl
              (fun H : False => H))
    as (u & j & Hrun & _ & _ & _ & Hp & _ & He & _ & Hj).
  exists u, j. repeat split; assumption.
Defined.

Lemma register_duplicate_witness :
  respond (Inscription.post_register
             (Scenes.sign_up "zoe@example.com" "other" "Zoe again"))
          Scenes.registration Scenes.members
  = (reply 409 [Lit "Cet email est déjà utilisé"], Scenes.members).
Proof.
  exact (InscriptionProps.register_duplicate
           Scenes.registration Scenes.members
           (Scenes.sign_up "zoe@example.com" "other" "Zoe again")
           "$toy$other" "zoe@example.com" "Zoe again"
           eq_refl eq_refl eq_refl eq_refl eq_refl eq_refl
           (or_introl eq_refl)).
Defined.

Lemma register_then_login_witness :
  exists rs r',
    respond (Inscription.post_register
               (Scenes.sign_up "zoe@example.com" "sesame" "Zoe"))
            Scenes.registration Scenes.nobody = (Some rs, r')
    /\ res_status rs = 201
    /\ fst (respond (Inscription.on_users
                       (Utilisateurs.post_login
                          (Samples.credentials "zoe@example.com" "sesame")))
                    Scenes.registration r')
       = Some {| res_status := 200;
                 res_body :=
                   Json (VObj [ ("message", VStr "Connexion réussie");
                                ("user",
                                 VObj [ ("id", VNum 1);
                                        ("email", VStr "zoe@example.com");
                                        ("name", VStr "Zoe");
                                        ("createdAt", VDate 50);
                                        ("updatedAt", VDate 50) ]) ]) |}.
Proof.
  destruct (InscriptionProps.register_then_login
              Scenes.registration Scenes.nobody
              (Scenes.sign_up "zoe@example.com" "sesame" "Zoe")
              "$toy$sesame" "zoe@example.com" "Zoe"
              (Samples.credentials "zoe@example.com" "sesame")
              eq_refl eq_refl eq_refl eq_refl eq_refl eq_refl eq_refl
              (fun H : False => H) eq_refl eq_refl eq_refl)
    as (rs & r' & Hrun & H201 & Hlogin).
  exists rs, r'. repeat split; try assumption.
  now rewrite Hlogin.
Defined.

Lemma register_keeps_sound_witness :
  Inscription.sound
    (snd (respond (Inscription.post_register
                     (Scenes.sign_up "zoe@example.com" "sesame" "Zoe"))
                  Scenes.registration Scenes.nobody)).
Proof.
  exact (InscriptionProps.register_keeps_sound
           Scenes.registration Scenes.nobody
           (Scenes.sign_up "zoe@example.com" "sesame" "Zoe") nobody_sound).
Defined.

Lemma register_missing_field_witness :
  snd (respond (Inscription.post_register
                  [("email", VStr "zoe@example.com"); ("name", VStr "Zoe")])
               Scenes.registration Scenes.members)
  = Scenes.members.
Proof.
  exact (proj2 (InscriptionProps.register_missing_field
                  Scenes.registration Scenes.members
                  [("email", VStr "zoe@example.com"); ("name", VStr "Zoe")])
               eq_refl).
Defined.

Lemma register_validation_fails_witness :
  respond (Inscription.post_register
             [("email", VNum 5); ("password", VStr "sesame");
              ("name", VStr "Zoe")])
          Scenes.registration Scenes.members
  = (Some {| res_status := 400;
             res_body :=
               Json (VObj [ ("error", VStr "Validation Error");
                            ("details",
                             VArr [VStr "Validation isEmail on email failed"]) ]) |},
     Scenes.members).
Proof.
  exact (InscriptionProps.register_validation_fails
           Scenes.registration Scenes.members
           [("email", VNum 5); ("password", VStr "sesame");
            ("name", VStr "Zoe")]
           "$toy$sesame" _
           [VObj [("message", VStr "Validation isEmail on email failed")]]
           eq_refl eq_refl eq_refl eq_refl eq_refl eq_refl eq_refl
           (Forall_cons
              (P := fun e => nullish e = false)
              (VObj [("message", VStr "Validation isEmail on email failed")])
              eq_refl (Forall_nil _))).
Defined.

Lemma post_livres_creates_witness :
  exists row j,
    respond (Catalogue.post_livres Scenes.new_book)
            Samples.catalog_env Scenes.shelf
    = (Some {| res_status := 201; res_body := Json j |},
       {| Catalogue.books := Samples.catalog ++ [row];
          Catalogue.next_id := 6 |})
    /\ Livres.id row = 5
    /\ prop j "title" = VStr "Nana"
    /\ prop j "year" = VNum 1880.
Proof.
  destruct (CatalogueProps.post_livres_creates
              Samples.catalog_env Scenes.shelf Scenes.new_book
              eq_refl eq_refl eq_refl)
    as (row & j & Hrun & Hid & _ & _ & _ & _ & Ht & _ & Hy).
  exists row, j. repeat split; assumption.
Defined.

Lemma post_livres_missing_field_witness :
  snd (respond (Catalogue.post_livres [("title", VStr "Nana")])
               Samples.catalog_env Scenes.shelf)
  = Scenes.shelf.
Proof.
  exact (proj2 (CatalogueProps.post_livres_missing_field
                  Samples.catalog_env Scenes.shelf [("title", VStr "Nana")])
               eq_refl).
Defined.


Lemma delete_livre_removes_witness :
  fst (respond (Catalogue.delete_livre "2") Samples.catalog_env Scenes.shelf)
  = reply 204 []
  /\ fst (respond (Catalogue.get_livre "2") Samples.catalog_env
            (snd (respond (Catalogue.delete_livre "2")
                          Samples.catalog_env Scenes.shelf)))
     = reply 404 [Lit "Livre non trouvé"].
Proof.
  destruct (CatalogueProps.delete_livre_removes
              Samples.catalog_env Scenes.shelf "2" 2 Samples.germinal
              Samples.catalog_env eq_refl eq_refl eq_refl eq_refl eq_refl)
    as (H204 & _ & _ & _ & H404).
  split; assumption.
Defined.




Lemma catalogue_keeps_sound_witness :
  Catalogue.sound
    (snd (respond (Catalogue.delete_livre "2")
                  Samples.catalog_env Scenes.shelf)).
Proof.
  exact (proj2 (proj2 (CatalogueProps.catalogue_keeps_sound
                         Samples.catalog_env Scenes.shelf "2" []
                         shelf_sound))).
Defined.

Lemma put_livre_save_fails_witness :
  respond (Catalogue.put_livre "2" [("year", VStr "soon")])
          Scenes.strict_catalog Scenes.shelf
  = (Some {| res_status := 400;
             res_body :=
               Json (VObj [ ("error", VStr "Validation error");
                            ("details",
                             VArr [VObj [("message",
                                          VStr "year must be an integer")]]) ]) |},
     Scenes.shelf).
Proof.
  exact (CatalogueProps.put_livre_save_fails
           Scenes.strict_catalog Scenes.shelf "2" [("year", VStr "soon")]
           2 Samples.germinal Scenes.year_refused
           eq_refl eq_refl eq_refl eq_refl eq_refl).
Defined.

Lemma order_against_live_peers_witness :
  fst (respond (Commandes.post_commandes (Samples.new_order 1 2))
               Scenes.counter Samples.shop)
  = Some {| res_status := 201;
            res_body :=
              Json (to_json
                      (VObj (Commandes.plain
                               (Commandes.created Scenes.counter Samples.shop
                                                  (VNum 1) (VNum 2))))) |}
  /\ fst (respond (Commandes.post_commandes (Samples.new_order 7 2))
                  Scenes.counter Samples.shop)
     = reply 404 [Lit "Utilisateur avec ID "; Interp (VNum 7);
                  Lit " non trouvé."].
Proof.
  split.
  - exact (f_equal fst
             (LibrairieProps.order_against_live_peers
                Scenes.town 1000 1001 Samples.shop 1 2
                eq_refl eq_refl
                ltac:(discriminate) ltac:(discriminate)
                eq_refl eq_refl)).
  - exact (f_equal fst
             (LibrairieProps.order_against_live_peers
                Scenes.town 1000 1001 Samples.shop 7 2
                eq_refl eq_refl
                ltac:(discriminate) ltac:(discriminate)
                eq_refl eq_refl)).
Defined.

Lemma order_when_a_peer_fails_witness :
  respond (Commandes.post_commandes (Samples.new_order 1 2))
          (Librairie.facing Scenes.town_accounts_down 1000 1001 None)
          Samples.shop
  = (reply 500 [Lit "Erreur lors de la vérification de l'utilisateur."],
     Commandes.logged Samples.shop [Commandes.GetUser (VNum 1)]).
Proof.
  destruct (LibrairieProps.order_when_a_peer_fails
              Scenes.town_accounts_down 1000 1001 None Samples.shop 1 2
              eq_refl eq_refl ltac:(discriminate) ltac:(discriminate))
    as [H _].
  exact (H Scenes.connection_lost eq_refl).
Defined.

Lemma enrichment_against_live_peers_witness :
  prop (to_json (Commandes.enriched Scenes.counter [] Samples.order1))
       "userName" = VStr "Zoe"
  /\ prop (to_json (Commandes.enriched Scenes.counter [] Samples.order1))
          "bookTitle" = VStr "Germinal"
  /\ prop (to_json
             (Commandes.enriched
                (Librairie.facing Scenes.town_without_germinal 1000 1001 None)
                [] Samples.order1))
          "bookTitle" = VStr "Livre inconnu".
Proof.
  destruct (LibrairieProps.enrichment_against_live_peers
              Scenes.town 1000 1001 None [] Samples.order1 1 2
              eq_refl eq_refl eq_refl eq_refl eq_refl eq_refl)
    as (Hu & _ & Hb & _).
  destruct (LibrairieProps.enrichment_against_live_peers
              Scenes.town_without_germinal 1000 1001 None [] Samples.order1
              1 2 eq_refl eq_refl eq_refl eq_refl eq_refl eq_refl)
    as (_ & _ & _ & Hgone).
  split; [|split].
  - exact (Hu Scenes.zoe eq_refl).
  - exact (Hb Samples.germinal eq_refl).
  - exact (Hgone eq_refl).
Defined.


End Illustrations.
